(** * logk: a leveled, namespaced logging facade

    A shallow embedding of the Go package [logk] (stdlogger.go, the
    registry file declaring [Get], [Register] and [Clear], and the typed
    getters of the option package), followed by the properties proved
    about it.

    Conventions.
    - Go packages become modules: [level], [logkContext], [logkOption],
      [fmt], [stdLog] and [logk].
    - An interface value that may be nil is an [option]; the dynamic
      values of [interface{}] are the constructors of [any].
    - A call of [Printer.Print] is recorded as a [PrintCall]; a call of
      [log.Logger.Printf] is recorded as a [PrintfCall].  Text is obtained
      from the latter by [stdLog.Printf].
    - A panic is the [Panic] result of the [M] monad, which still carries
      the state of the package-level variables at the time of the panic. *)

From Stdlib Require Import ZArith Ascii String List Bool Lia.
From stdpp Require Import base option strings pretty gmap list.

Local Open Scope string_scope.

(** ** Package level *)

Module level.

(** Modelled from the spec: the declaration of [LogLevel] is outside the
    given sources.  The spec describes an ordered enumeration
    Fatal, Error, Warn, Info, Debug, Trace, Fatal being the most severe and
    having the lowest ordinal (the numeric zero), Trace the highest. *)
Inductive LogLevel : Set := Fatal | Error | Warn | Info | Debug | Trace.

Definition ordinal (l : LogLevel) : Z :=
  match l with
  | Fatal => 0 | Error => 1 | Warn => 2 | Info => 3 | Debug => 4 | Trace => 5
  end%Z.

(** The zero value of the type: the constant whose ordinal is 0. *)
Definition zero : LogLevel := Fatal.

(** [a > b] on levels, as Go compares the underlying integers. *)
Definition gt (a b : LogLevel) : bool := (ordinal b <? ordinal a)%Z.

(** [a <= b] on levels. *)
Definition le (a b : LogLevel) : bool := (ordinal a <=? ordinal b)%Z.

Definition upper_ascii (c : ascii) : ascii :=
  let n := nat_of_ascii c in
  if (97 <=? n)%nat && (n <=? 122)%nat then ascii_of_nat (n - 32) else c.

Fixpoint to_upper (s : string) : string :=
  match s with
  | EmptyString => EmptyString
  | String c r => String (upper_ascii c) (to_upper r)
  end.

(** Modelled from the spec: [Parse] is outside the given sources.  The spec
    describes a case-insensitive match against the six level names, with
    unrecognised or empty input falling back to Info. *)
Definition Parse (name : string) : LogLevel :=
  let u := to_upper name in
  if String.eqb u "FATAL" then Fatal
  else if String.eqb u "ERROR" then Error
  else if String.eqb u "WARN" then Warn
  else if String.eqb u "INFO" then Info
  else if String.eqb u "DEBUG" then Debug
  else if String.eqb u "TRACE" then Trace
  else Info.

End level.

(** ** Dynamic values *)

(** A Go [error] value that is not nil: the name of its dynamic type and
    the text its [Error()] method returns. *)
Record GoError : Set := { err_type : string; err_text : string }.

(** [time.Time], as an offset in nanoseconds from the zero instant
    [time.Time{}]. *)
Definition Time : Set := Z.
Definition zero_Time : Time := 0%Z.

(** The values of [interface{}] that the package stores and formats. *)
Inductive any : Set :=
| nil_any                     (* the nil interface value *)
| of_string (s : string)      (* string *)
| of_int (i : Z)              (* int *)
| of_int64 (i : Z)            (* int64 *)
| of_time (t : Time)          (* time.Time *)
| of_error (e : GoError)      (* a value whose dynamic type implements error *)
| of_bytes (b : string).      (* []byte *)

(** A value of static type [error] converted to [interface{}]. *)
Definition any_of_error (e : option GoError) : any :=
  match e with
  | None => nil_any
  | Some e => of_error e
  end.

(** ** Package logkContext *)

Module logkContext.

(** Modelled from the spec: the context package is outside the given
    sources.  The spec describes a request identifier stashed inside an
    ambient context and retrieved by printers; a context without one
    yields the empty string, and so does the nil context. *)
Record Context : Set := { requestId : string }.

(** Modelled from the spec: [GetRequestId] is outside the given sources;
    it retrieves the identifier, and the nil context has none. *)
Definition GetRequestId (ctx : option Context) : string :=
  match ctx with
  | None => ""
  | Some c => requestId c
  end.

End logkContext.

(** ** Package logkOption *)

Module logkOption.

(** Modelled from the spec: the declaration of [Options] is outside the
    given sources.  The fields are the ones stdlogger.go and the getters
    read: [Level] (here [Level_], the name [Level] being the setter's),
    [FmtArgs], [Values], [Context] and [Metadata].  A Go map that is nil
    reads like the empty map, so both are [∅]. *)
Record Options : Type := {
  Level_ : level.LogLevel;
  FmtArgs : list any;
  Values : gmap string any;
  Context : option logkContext.Context;
  Metadata : gmap string any
}.

Definition set_Level (lv : level.LogLevel) (o : Options) : Options :=
  {| Level_ := lv; FmtArgs := FmtArgs o; Values := Values o;
     Context := Context o; Metadata := Metadata o |}.

Definition set_FmtArgs (a : list any) (o : Options) : Options :=
  {| Level_ := Level_ o; FmtArgs := a; Values := Values o;
     Context := Context o; Metadata := Metadata o |}.

Definition set_Values (v : gmap string any) (o : Options) : Options :=
  {| Level_ := Level_ o; FmtArgs := FmtArgs o; Values := v;
     Context := Context o; Metadata := Metadata o |}.

Definition set_Context (c : option logkContext.Context) (o : Options) : Options :=
  {| Level_ := Level_ o; FmtArgs := FmtArgs o; Values := Values o;
     Context := c; Metadata := Metadata o |}.

Definition set_Metadata (m : gmap string any) (o : Options) : Options :=
  {| Level_ := Level_ o; FmtArgs := FmtArgs o; Values := Values o;
     Context := Context o; Metadata := m |}.

(** [o.Values[k]]: a missing key reads as the nil interface value. *)
Definition index (m : gmap string any) (k : string) : any :=
  default nil_any (m !! k).

(** *** The typed getters (source: the getters file of the option package) *)

Definition GetString (o : Options) (k : string) : string * bool :=
  match index (Values o) k with
  | of_string s => (s, true)
  | _ => ("", false)
  end.

Definition GetInt64 (o : Options) (k : string) : Z * bool :=
  match index (Values o) k with
  | of_int64 i => (i, true)
  | _ => (0%Z, false)
  end.

Definition GetTime (o : Options) (k : string) : Time * bool :=
  match index (Values o) k with
  | of_time t => (t, true)
  | _ => (zero_Time, false)
  end.

Definition GetError (o : Options) (k : string) : option GoError :=
  match index (Values o) k with
  | of_error e => Some e
  | _ => None
  end.

(** *** Setters and their evaluation *)

(** Modelled from the spec: the reserved key of the namespace is declared
    outside the given sources. *)
Definition NamespaceKey : string := "namespace".

(** Modelled from the spec: the reserved key of the carried error is
    declared outside the given sources. *)
Definition ErrorKey : string := "error".

(** A setter is a function on the options under construction.  Go passes
    a pointer and the setter mutates; here it returns the new value. *)
Definition SetterFunc : Type := Options -> Options.

(** Modelled from the spec: the zero [Options] that [Evaluate] starts
    from, with its maps allocated. *)
Definition zero_Options : Options :=
  {| Level_ := level.zero; FmtArgs := []; Values := ∅;
     Context := None; Metadata := ∅ |}.

(** Modelled from the spec: [Evaluate] allocates a zero [Options] and
    applies each setter in the order given. *)
Definition Evaluate (args : list SetterFunc) : Options :=
  fold_left (fun o f => f o) args zero_Options.

(** Modelled from the spec: the setter [Level] is outside the given
    sources; it sets the level of the options. *)
Definition Level (lv : level.LogLevel) : SetterFunc := set_Level lv.

(** Modelled from the spec: the setter [WithNamespace] is outside the
    given sources; it stores the namespace, which stdlogger.go reads back
    through [GetString] under [NamespaceKey]. *)
Definition WithNamespace (s : string) : SetterFunc :=
  fun o => set_Values (<[NamespaceKey := of_string s]> (Values o)) o.

(** Modelled from the spec: the setter [WithContext] is outside the given
    sources; it sets the context of the options. *)
Definition WithContext (c : option logkContext.Context) : SetterFunc :=
  set_Context c.

(** Modelled from the spec: the setter [WithMetadata] is outside the
    given sources; metadata is merged key by key, the new value winning. *)
Definition WithMetadata (m : gmap string any) : SetterFunc :=
  fun o => set_Metadata (m ∪ Metadata o) o.

(** Modelled from the spec: the setter [Error] is outside the given
    sources; it stores the error under the reserved key [ErrorKey], where
    the printer reads it back through [GetError]. *)
Definition Error (err : option GoError) : SetterFunc :=
  fun o => set_Values (<[ErrorKey := any_of_error err]> (Values o)) o.

(** Modelled from the spec: [NewFormatOptions] is outside the given
    sources; the options of the formatted variants carry the positional
    arguments and nothing else. *)
Definition NewFormatOptions (args : list any) : Options :=
  set_FmtArgs args zero_Options.

End logkOption.

(** ** Package fmt (Go standard library), the fragment the package uses *)

Module fmt.

Definition LF : ascii := "010"%char.
Definition nl : string := String LF "".

(** [reflect.TypeOf(v).String()] *)
Definition type_name (v : any) : string :=
  match v with
  | nil_any => "<nil>"
  | of_string _ => "string"
  | of_int _ => "int"
  | of_int64 _ => "int64"
  | of_time _ => "time.Time"
  | of_error e => err_type e
  | of_bytes _ => "[]uint8"
  end.

(** An operand under [%v].  [None] marks an operand that this model does
    not cover (a [time.Time], a byte slice); it is not an error of Go's. *)
Definition printValue (v : any) : option string :=
  match v with
  | nil_any => Some "<nil>"
  | of_string s => Some s
  | of_int i | of_int64 i => Some (pretty i)
  | of_error e => Some (err_text e)
  | _ => None
  end.

(** [badVerb]: the marker Go writes for an operand whose type does not
    take the verb: the verb, then the type and the value of the operand,
    or [<nil>] for the nil operand. *)
Definition badVerb (v : any) (verb : ascii) : option string :=
  match v with
  | nil_any => Some ("%!" +:+ String verb "(<nil>)")
  | _ =>
      match printValue v with
      | Some s => Some ("%!" +:+ String verb "(" +:+ type_name v +:+ "=" +:+ s +:+ ")")
      | None => None
      end
  end.

(** [printArg]: one operand under one verb.  [None] marks a combination
    that this model does not cover (it is not an error of Go's): a
    [time.Time] under any verb, a byte slice under [%v] or [%d], an error
    under [%d], and every verb other than [v], [s] and [d]. *)
Definition printArg (v : any) (verb : ascii) : option string :=
  if Ascii.eqb verb "v" then printValue v
  else if Ascii.eqb verb "s" then
    match v with
    | of_string s => Some s
    | of_error e => Some (err_text e)
    | of_bytes b => Some b
    | nil_any | of_int _ | of_int64 _ => badVerb v verb
    | of_time _ => None
    end
  else if Ascii.eqb verb "d" then
    match v with
    | of_int i | of_int64 i => Some (pretty i)
    | nil_any | of_string _ => badVerb v verb
    | _ => None
    end
  else None.

(** The verbs of the fragment: [%v], [%s] and [%d], with no flag, width,
    precision or argument index. *)
Definition simple_verb (c : ascii) : bool :=
  Ascii.eqb c "v" || Ascii.eqb c "s" || Ascii.eqb c "d".

(** [doPrintf]: the text produced by the directives of [format] and the
    operands left over.  A lone [%] at the end writes the NOVERB marker; a
    verb with no operand left writes the MISSING marker; [%%] writes a
    percent sign and takes no operand. *)
Fixpoint doPrintf (format : string) (a : list any) : option (string * list any) :=
  match format with
  | EmptyString => Some ("", a)
  | String c rest =>
      if Ascii.eqb c "%" then
        match rest with
        | EmptyString => Some ("%!(NOVERB)", a)
        | String verb rest' =>
            if Ascii.eqb verb "%" then
              match doPrintf rest' a with
              | Some (out, a') => Some (String "%" out, a')
              | None => None
              end
            else if simple_verb verb then
              match a with
              | [] =>
                  match doPrintf rest' [] with
                  | Some (out, a') =>
                      Some ("%!" +:+ String verb "(MISSING)" +:+ out, a')
                  | None => None
                  end
              | x :: a' =>
                  match printArg x verb, doPrintf rest' a' with
                  | Some s, Some (out, a'') => Some (s +:+ out, a'')
                  | _, _ => None
                  end
              end
            else None
        end
      else
        match doPrintf rest a with
        | Some (out, a') => Some (String c out, a')
        | None => None
        end
  end.

(** The operands that no directive consumed, as the EXTRA marker lists
    them. *)
Fixpoint extra (a : list any) : option string :=
  match a with
  | [] => Some ""
  | x :: a' =>
      let one :=
        match x with
        | nil_any => Some "<nil>"
        | _ => s ← printArg x "v"; Some (type_name x +:+ "=" +:+ s)
        end in
      match a' with
      | [] => one
      | _ => s ← one; r ← extra a'; Some (s +:+ ", " +:+ r)
      end
  end.

Definition Sprintf (format : string) (a : list any) : option string :=
  match doPrintf format a with
  | Some (out, []) => Some out
  | Some (out, unused) =>
      e ← extra unused; Some (out +:+ "%!(EXTRA " +:+ e +:+ ")")
  | None => None
  end.

(** A format whose last directive is a lone [%]. *)
Fixpoint dangling (format : string) : bool :=
  match format with
  | EmptyString => false
  | String c rest =>
      if Ascii.eqb c "%" then
        match rest with
        | EmptyString => true
        | String _ rest' => dangling rest'
        end
      else dangling rest
  end.

(** A string with no percent sign in it. *)
Fixpoint plain (s : string) : bool :=
  match s with
  | EmptyString => true
  | String c rest => negb (Ascii.eqb c "%") && plain rest
  end.

End fmt.

(** ** Package log (Go standard library), imported as stdLog *)

Module stdLog.

(** [io.Writer] values that are not nil. *)
Inductive Writer : Set := Stdout | OtherWriter (id : nat).

Definition Ldate : Z := 1.
Definition Ltime : Z := 2.
Definition LstdFlags : Z := Z.lor Ldate Ltime.

(** [log.Logger]: destination, prefix and flags. *)
Record Logger : Set := { out : Writer; prefix : string; flag : Z }.

Definition New (out : Writer) (prefix : string) (flag : Z) : Logger :=
  {| out := out; prefix := prefix; flag := flag |}.

(** One call of the [Printf] method of a [log.Logger]. *)
Record PrintfCall : Set := { format : string; args : list any }.

Fixpoint ends_with_newline (s : string) : bool :=
  match s with
  | EmptyString => false
  | String c EmptyString => Ascii.eqb c fmt.LF
  | String _ r => ends_with_newline r
  end.

(** The entry that one [Printf] call writes: the formatted text, ended by
    a newline when it does not end in one already.  The header that the
    flags select (date and time) precedes every entry alike and is left
    out. *)
Definition Printf (c : PrintfCall) : option string :=
  s ← fmt.Sprintf (format c) (args c);
  Some (if ends_with_newline s then s else s +:+ fmt.nl).

(** The entries written by a sequence of calls, in order. *)
Fixpoint entries (cs : list PrintfCall) : option (list string) :=
  match cs with
  | [] => Some []
  | c :: cs' => e ← Printf c; es ← entries cs'; Some (e :: es)
  end.

End stdLog.

(** ** Package logk: the standard logger and its printer *)

Module logk.

Import logkOption.

Definition stdLevelPrefix (lv : level.LogLevel) : string :=
  match lv with
  | level.Fatal => "[FATAL] > "
  | level.Error => "[ERROR] > "
  | level.Warn => "[WARN]  > "
  | level.Info => "[INFO]  > "
  | level.Debug => "[DEBUG] > "
  | level.Trace => "[TRACE] > "
  end.

Record stdLogPrinter : Set := { writer : stdLog.Logger }.

(** [Printer] values that are not nil: the bundled implementation, or
    an implementation of the caller's, known by an identifier only.  What
    happens inside [Print] once it is called (a custom [Print] may panic,
    and so does the bundled one on a nil [*stdLogPrinter]) is not part of
    this type: the logger's side ends with the call. *)
Inductive Printer : Set :=
| StdLogPrinter (s : stdLogPrinter)
| CustomPrinter (id : nat).

Record StdLogger : Set := {
  level : level.LogLevel;
  printer : option Printer;
  namespace : string;
  ctx : option logkContext.Context
}.

(** [StdLogger{}] *)
Definition zero_StdLogger : StdLogger :=
  {| level := level.zero; printer := None; namespace := ""; ctx := None |}.

Definition set_ctx (c : option logkContext.Context) (l : StdLogger) : StdLogger :=
  {| level := level l; printer := printer l; namespace := namespace l; ctx := c |}.

(** One call of [Print] on a printer, with the arguments it received. *)
Record PrintCall : Type := {
  on_printer : Printer;
  arg_namespace : string;
  arg_level : level.LogLevel;
  arg_msg : string;
  arg_options : Options
}.

(** The result of a call that may panic. *)
Inductive res (A : Type) : Type :=
| Ok (a : A)
| Panic (v : string).
Arguments Ok {A} a.
Arguments Panic {A} v.

Definition nil_dereference : string :=
  "runtime error: invalid memory address or nil pointer dereference".

Definition NewStdLogPrinter (out : option stdLog.Writer) (flag : Z) : stdLogPrinter :=
  (* If writer is nil, set default writer to Stdout *)
  let out := match out with None => stdLog.Stdout | Some w => w end in
  let writer := stdLog.New out "" flag in
  {| writer := writer |}.

Definition NewStdLogger (printer : option Printer) (args : list SetterFunc) : StdLogger :=
  let o := Evaluate args in
  {| (* Set level *)
     level := Level_ o;
     (* Get namespace *)
     namespace :=
       (let '(namespace, _) := GetString o NamespaceKey in
        if negb (String.eqb namespace "") then namespace else "");
     (* Get context *)
     ctx := match Context o with Some c => Some c | None => None end;
     (* Init printer if nil *)
     printer :=
       match printer with
       | None => Some (StdLogPrinter (NewStdLogPrinter (Some stdLog.Stdout) stdLog.LstdFlags))
       | Some p => Some p
       end |}.

(** The options that [print] hands to the printer: the logger's context
    is injected when the options carry none. *)
Definition inject_ctx (l : StdLogger) (options : Options) : Options :=
  match ctx l, Context options with
  | Some c, None => set_Context (Some c) options
  | _, _ => options
  end.

(** [print] returns the calls of [Print] it made: none when the level
    gate stops the record, one otherwise.  [Ok [c]] says that [Print] was
    called with the arguments [c], not that [Print] returned.  Calling a
    method on the nil printer panics before any call is made. *)
Definition StdLogger_print (l : StdLogger) (outLevel : level.LogLevel) (msg : string)
    (options : Options) : res (list PrintCall) :=
  (* if output level is greater than log level, don't print *)
  if level.gt outLevel (level l) then Ok []
  else
    (* Inject context if not set *)
    let options := inject_ctx l options in
    match printer l with
    | None => Panic nil_dereference
    | Some p =>
        Ok [ {| on_printer := p; arg_namespace := namespace l; arg_level := outLevel;
                arg_msg := msg; arg_options := options |} ]
    end.

Definition StdLogger_Fatal l (msg : string) (args : list SetterFunc) :=
  StdLogger_print l level.Fatal msg (Evaluate args).
Definition StdLogger_Fatalf l (format : string) (args : list any) :=
  StdLogger_print l level.Fatal format (NewFormatOptions args).
Definition StdLogger_Error l (msg : string) (args : list SetterFunc) :=
  StdLogger_print l level.Error msg (Evaluate args).
Definition StdLogger_Errorf l (format : string) (args : list any) :=
  StdLogger_print l level.Error format (NewFormatOptions args).
Definition StdLogger_Warn l (msg : string) (args : list SetterFunc) :=
  StdLogger_print l level.Warn msg (Evaluate args).
Definition StdLogger_Warnf l (format : string) (args : list any) :=
  StdLogger_print l level.Warn format (NewFormatOptions args).
Definition StdLogger_Info l (msg : string) (args : list SetterFunc) :=
  StdLogger_print l level.Info msg (Evaluate args).
Definition StdLogger_Infof l (format : string) (args : list any) :=
  StdLogger_print l level.Info format (NewFormatOptions args).
Definition StdLogger_Debug l (msg : string) (args : list SetterFunc) :=
  StdLogger_print l level.Debug msg (Evaluate args).
Definition StdLogger_Debugf l (format : string) (args : list any) :=
  StdLogger_print l level.Debug format (NewFormatOptions args).
Definition StdLogger_Trace l (msg : string) (args : list SetterFunc) :=
  StdLogger_print l level.Trace msg (Evaluate args).
Definition StdLogger_Tracef l (format : string) (args : list any) :=
  StdLogger_print l level.Trace format (NewFormatOptions args).

(** The twelve logging methods of the [Logger] interface. *)
Inductive Method : Set :=
| Fatal | Fatalf | Error | Errorf | Warn | Warnf
| Info | Infof | Debug | Debugf | Trace | Tracef.

(** The level a method logs at. *)
Definition method_level (m : Method) : level.LogLevel :=
  match m with
  | Fatal | Fatalf => level.Fatal
  | Error | Errorf => level.Error
  | Warn | Warnf => level.Warn
  | Info | Infof => level.Info
  | Debug | Debugf => level.Debug
  | Trace | Tracef => level.Trace
  end.

(** A method call on a standard logger.  The plain methods read [msg]
    and [setters], the formatted ones [msg] (the format) and [fargs]. *)
Definition call (m : Method) (l : StdLogger) (msg : string)
    (setters : list SetterFunc) (fargs : list any) : res (list PrintCall) :=
  match m with
  | Fatal => StdLogger_Fatal l msg setters
  | Fatalf => StdLogger_Fatalf l msg fargs
  | Error => StdLogger_Error l msg setters
  | Errorf => StdLogger_Errorf l msg fargs
  | Warn => StdLogger_Warn l msg setters
  | Warnf => StdLogger_Warnf l msg fargs
  | Info => StdLogger_Info l msg setters
  | Infof => StdLogger_Infof l msg fargs
  | Debug => StdLogger_Debug l msg setters
  | Debugf => StdLogger_Debugf l msg fargs
  | Trace => StdLogger_Trace l msg setters
  | Tracef => StdLogger_Tracef l msg fargs
  end.

Definition StdLogger_NewChild (l : StdLogger) (args : list SetterFunc) : StdLogger :=
  let options := Evaluate args in
  (* Override namespace if option is set *)
  let '(namespace_, _) := GetString options NamespaceKey in
  (* If not set and parent has namespace, then use parent namespace *)
  let args :=
    if String.eqb namespace_ "" && negb (String.eqb (namespace l) "")
    then (args ++ [WithNamespace (namespace l)])%list
    else args in
  (* Override level arguments *)
  let args := (args ++ [Level (level l)])%list in
  (* Initiate new logger *)
  let cl := NewStdLogger (printer l) args in
  (* Set context if available *)
  match Context options with
  | Some c => set_ctx (Some c) cl
  | None => cl
  end.

(** A line of descendants: each list of setters derives a child of the
    logger before it. *)
Definition descend (l : StdLogger) (chain : list (list SetterFunc)) : StdLogger :=
  fold_left StdLogger_NewChild chain l.

Section StdLogPrinter.

(** [json.Marshal] on a metadata map (encoding/json is outside the
    repository): the encoded bytes, or [None] when it returns an error. *)
Variable json_Marshal : gmap string any -> option string.

(** The calls of [Printf] that [Print] makes on the printer's writer, in
    order. *)
Definition stdLogPrinter_Print (s : stdLogPrinter) (namespace : string)
    (lv : level.LogLevel) (msg : string) (options : Options) : list stdLog.PrintfCall :=
  (* Generate prefix *)
  let prefix := stdLevelPrefix lv in
  (* Append namespace *)
  let prefix :=
    if negb (String.eqb namespace "")
    then prefix +:+ "(" +:+ namespace +:+ ") "
    else prefix in
  (* If formatted arguments is available, then print as formatted *)
  let fmtArgs := FmtArgs options in
  let line :=
    if (0 <? length fmtArgs)%nat
    then {| stdLog.format := prefix +:+ msg +:+ fmt.nl; stdLog.args := fmtArgs |}
    else {| stdLog.format := "%s%s" +:+ fmt.nl;
            stdLog.args := [of_string prefix; of_string msg] |} in
  (* Get request id *)
  let reqId := logkContext.GetRequestId (Context options) in
  let request :=
    if negb (String.eqb reqId "")
    then [ {| stdLog.format := "  > Request ID: %s" +:+ fmt.nl;
              stdLog.args := [of_string reqId] |} ]
    else [] in
  (* If error exists, then print error *)
  let logErr := GetError options ErrorKey in
  let error :=
    match logErr with
    | Some e =>
        if level.le lv level.Error
        then [ {| stdLog.format := "  > Error: %s" +:+ fmt.nl;
                  stdLog.args := [of_error e] |} ]
        else []
    | None => []
    end in
  let meta := Metadata options in
  let metadata :=
    if (0 <? size meta)%nat then
      (* Serialize to json; if not error, then print *)
      match json_Marshal meta with
      | Some metadata =>
          [ {| stdLog.format := "  > Metadata: %s" +:+ fmt.nl;
               stdLog.args := [of_bytes metadata] |} ]
      | None => []
      end
    else [] in
  (line :: request ++ error ++ metadata)%list.

(** What the bundled printer writes for the calls a logging method made:
    the [Printf] calls of every [Print] that reached a bundled printer. *)
Definition written (calls : list PrintCall) : list stdLog.PrintfCall :=
  flat_map
    (fun c =>
       match on_printer c with
       | StdLogPrinter s =>
           stdLogPrinter_Print s (arg_namespace c) (arg_level c) (arg_msg c) (arg_options c)
       | CustomPrinter _ => []
       end)
    calls.

(** The text a logging method leaves on the bundled printer's writer. *)
Definition text_of (r : res (list PrintCall)) : option (list string) :=
  match r with
  | Ok calls => stdLog.entries (written calls)
  | Panic _ => None
  end.

End StdLogPrinter.

(** *** The global registry (source: the file declaring [Get]) *)

(** Modelled from the spec: the constant [pkgName] is declared outside
    the given sources; it prefixes the message of the panic. *)
Definition pkgName : string := "logk".

(** Modelled from the spec: the constant [EnvLogLevel] is declared outside
    the given sources; the spec names the variable. *)
Definition EnvLogLevel : string := "LOG_LEVEL".

(** Modelled from the spec: the constant [EnvLogNamespace] is declared
    outside the given sources; the spec names the variable. *)
Definition EnvLogNamespace : string := "LOG_NAMESPACE".

(** [Logger] values that are not nil: a pointer to a [StdLogger], which
    is its address in the store of allocated loggers, or an
    implementation of the caller's, known by an identifier only. *)
Inductive Logger : Set :=
| StdLoggerPtr (addr : nat)
| CustomLogger (id : nat).

(** What a call on a [Logger] leaves behind. *)
Inductive Event : Type :=
| Printed (c : PrintCall)
| CustomLogged (id : nat) (m : Method) (msg : string).

(** The package-level variable [log], the [StdLogger] objects allocated
    so far, the process environment and the events so far. *)
Record World : Type := {
  log : option Logger;
  loggers : list StdLogger;
  environ : gmap string string;
  events : list Event
}.

Definition set_log (l : option Logger) (w : World) : World :=
  {| log := l; loggers := loggers w; environ := environ w; events := events w |}.

Definition add_logger (l : StdLogger) (w : World) : World :=
  {| log := log w; loggers := (loggers w ++ [l])%list; environ := environ w;
     events := events w |}.

Definition add_events (es : list Event) (w : World) : World :=
  {| log := log w; loggers := loggers w; environ := environ w;
     events := (events w ++ es)%list |}.

(** Computations on the world that may panic.  A panic keeps the world
    as it was when the panic was raised. *)
Definition M (A : Type) : Type := World -> res A * World.

Definition ret {A} (a : A) : M A := fun w => (Ok a, w).

Definition bind {A B} (m : M A) (k : A -> M B) : M B :=
  fun w =>
    match m w with
    | (Ok a, w') => k a w'
    | (Panic v, w') => (Panic v, w')
    end.

Definition panic {A} (v : string) : M A := fun w => (Panic v, w).

Notation "x <- m ;; k" := (bind m (fun x => k))
  (at level 100, m at next level, right associativity).

(** [os.LookupEnv] *)
Definition os_LookupEnv (key : string) : M (string * bool) :=
  fun w =>
    match environ w !! key with
    | Some v => (Ok (v, true), w)
    | None => (Ok ("", false), w)
    end.

(** [&l] for a new [StdLogger]: the object gets the next free address. *)
Definition new_StdLogger (l : StdLogger) : M Logger :=
  fun w => (Ok (StdLoggerPtr (length (loggers w))), add_logger l w).

(** The value of the variable [log]. *)
Definition read_log : M (option Logger) := fun w => (Ok (log w), w).

(** A logging method called on a [Logger] value, by dynamic dispatch. *)
Definition Logger_call (lg : option Logger) (m : Method) (msg : string)
    (setters : list SetterFunc) (fargs : list any) : M unit :=
  fun w =>
    match lg with
    | None => (Panic nil_dereference, w)
    | Some (StdLoggerPtr a) =>
        match loggers w !! a with
        | Some l =>
            match call m l msg setters fargs with
            | Ok calls => (Ok tt, add_events (map Printed calls) w)
            | Panic v => (Panic v, w)
            end
        | None => (Panic nil_dereference, w)
        end
    | Some (CustomLogger id) => (Ok tt, add_events [CustomLogged id m msg] w)
    end.

(** With one caller at a time the lock taken by [Register] and [Clear]
    is free on entry and released by the deferred unlock on return, so it
    leaves no trace here; the interleaved model below keeps it. *)
Definition Register (l : option Logger) : M unit :=
  match l with
  | None =>
      (* If logger is nil, return error *)
      panic (pkgName +:+ ": logger to be registered is nil")
  | Some _ =>
      (* Set logger *)
      fun w => (Ok tt, set_log l w)
  end.

Definition Clear : M unit :=
  fun w => (Ok tt, set_log None w).

Definition bootstrap_message : string := "No logger found. StdLogger initiated".

(** The arguments [Get] builds the fallback logger from. *)
Definition fallback (logLevelStr namespace : string) : StdLogger :=
  let logLevel := level.Parse logLevelStr in
  let p := NewStdLogPrinter (Some stdLog.Stdout) stdLog.LstdFlags in
  NewStdLogger (Some (StdLogPrinter p)) [Level logLevel; WithNamespace namespace].

Definition Get : M (option Logger) :=
  cur <- read_log ;;
  _ <- match cur with
       | None =>
           (* Get logger from env *)
           lv <- os_LookupEnv EnvLogLevel ;;
           (* Get logger prefix *)
           ns <- os_LookupEnv EnvLogNamespace ;;
           (* Init standard logger *)
           l <- new_StdLogger (fallback (fst lv) (fst ns)) ;;
           (* Register logger *)
           _ <- Register (Some l) ;;
           cur <- read_log ;;
           Logger_call cur Trace bootstrap_message [] []
       | Some _ => ret tt
       end ;;
  read_log.

(** *** The package-level [NewChild] *)

(** What [NewChild] returns when called on a [Logger] value: on a
    standard logger, the pointer to the child it allocated; a custom
    logger answers with a logger of its own making, of which only the call
    is known. *)
Inductive Child : Type :=
| StdChild (l : Logger)
| CustomChild (parent : nat) (args : list SetterFunc).

(** The method [NewChild] called on a [Logger] value, by dynamic
    dispatch.  The method of [StdLogger] returns [cl], a pointer to a new
    object. *)
Definition Logger_NewChild (lg : option Logger) (args : list SetterFunc) : M Child :=
  fun w =>
    match lg with
    | None => (Panic nil_dereference, w)
    | Some (StdLoggerPtr a) =>
        match loggers w !! a with
        | Some l =>
            match new_StdLogger (StdLogger_NewChild l args) w with
            | (Ok cl, w') => (Ok (StdChild cl), w')
            | (Panic v, w') => (Panic v, w')
            end
        | None => (Panic nil_dereference, w)
        end
    | Some (CustomLogger id) => (Ok (CustomChild id args), w)
    end.

Definition NewChild (args : list SetterFunc) : M Child :=
  (* Get parent logger *)
  logger <- Get ;;
  Logger_NewChild logger args.

(** *** Interleaved callers of [Get] *)

(** Where a goroutine stands inside [Get].  Every step reads or writes
    the shared variables at most once. *)
Inductive pc : Type :=
| AtCheck                 (* about to evaluate [log == nil] *)
| AtInit                  (* inside the branch: builds the fallback logger *)
| AtLock (l : Logger)     (* in Register, past the nil test: about to lock *)
| AtStore (l : Logger)    (* holds the lock: about to assign [log = l] *)
| AtUnlock                (* the deferred unlock *)
| AtTrace                 (* about to call [log.Trace] *)
| AtReturn                (* about to read [log] for the result *)
| Done (r : option Logger)
| Crashed (v : string).

(** The shared variables: the world and [logMutex] with its holder. *)
Record Shared : Type := { world : World; logMutex : option nat }.

(** One step of goroutine [tid]; [None] when it cannot move (it waits
    for the lock, or it has finished). *)
Definition step (tid : nat) (p : pc) (sh : Shared) : option (pc * Shared) :=
  let w := world sh in
  let keep w' := {| world := w'; logMutex := logMutex sh |} in
  match p with
  | AtCheck =>
      match log w with
      | None => Some (AtInit, sh)
      | Some _ => Some (AtReturn, sh)
      end
  | AtInit =>
      match (lv <- os_LookupEnv EnvLogLevel ;;
             ns <- os_LookupEnv EnvLogNamespace ;;
             new_StdLogger (fallback (fst lv) (fst ns))) w with
      | (Ok l, w') => Some (AtLock l, keep w')
      | (Panic v, w') => Some (Crashed v, keep w')
      end
  | AtLock l =>
      match logMutex sh with
      | None => Some (AtStore l, {| world := w; logMutex := Some tid |})
      | Some _ => None
      end
  | AtStore l => Some (AtUnlock, keep (set_log (Some l) w))
  | AtUnlock => Some (AtTrace, {| world := w; logMutex := None |})
  | AtTrace =>
      match Logger_call (log w) Trace bootstrap_message [] [] w with
      | (Ok _, w') => Some (AtReturn, keep w')
      | (Panic v, w') => Some (Crashed v, keep w')
      end
  | AtReturn => Some (Done (log w), sh)
  | Done _ | Crashed _ => None
  end.

(** The goroutines and the variables they share. *)
Record Config : Type := { shared : Shared; threads : list pc }.

Definition sched_step (tid : nat) (c : Config) : option Config :=
  p ← threads c !! tid;
  '(p', sh') ← step tid p (shared c);
  Some {| shared := sh'; threads := <[tid := p']> (threads c) |}.

(** Runs a schedule: the goroutine to move at each step. *)
Fixpoint run (schedule : list nat) (c : Config) : option Config :=
  match schedule with
  | [] => Some c
  | tid :: rest => c' ← sched_step tid c; run rest c'
  end.

(** [n] goroutines about to call [Get] on world [w], the lock free. *)
Definition callers (n : nat) (w : World) : Config :=
  {| shared := {| world := w; logMutex := None |}; threads := replicate n AtCheck |}.

End logk.

(** * Vocabulary of the properties *)

Import logkOption logk.

(** ** Setters *)

(** A setter that leaves the level alone. *)
Definition keeps_level (f : SetterFunc) : Prop :=
  forall o, Level_ (f o) = Level_ o.

(** The namespace override a list of setters carries, as [NewChild] and
    the constructor read it: the string stored under the namespace key,
    and the empty string when there is none. *)
Definition override (args : list SetterFunc) : string :=
  fst (GetString (Evaluate args) NamespaceKey).

(** ** Dynamic types *)

(** The dynamic type of a value is [string], [error], [int64],
    [time.Time]. *)
Definition is_string (v : any) : bool :=
  match v with of_string _ => true | _ => false end.

Definition is_error (v : any) : bool :=
  match v with of_error _ => true | _ => false end.

Definition is_int64 (v : any) : bool :=
  match v with of_int64 _ => true | _ => false end.

Definition is_time (v : any) : bool :=
  match v with of_time _ => true | _ => false end.

(** ** The lines of the bundled printer *)

(** The format of the call that writes the error line. *)
Definition error_format : string := "  > Error: %s" +:+ fmt.nl.

(** The call that writes the error line. *)
Definition error_line (e : GoError) : stdLog.PrintfCall :=
  {| stdLog.format := error_format; stdLog.args := [of_error e] |}.

(** A call that writes the error line. *)
Definition is_error_line (c : stdLog.PrintfCall) : bool :=
  String.eqb (stdLog.format c) error_format.

(** [s] starts with [p]. *)
Fixpoint starts_with (p s : string) : bool :=
  match p, s with
  | EmptyString, _ => true
  | String a p', String b s' => Ascii.eqb a b && starts_with p' s'
  | String _ _, EmptyString => false
  end.

(** An entry of the writer that starts like the error line. *)
Definition is_error_text (t : string) : bool :=
  starts_with "  > Error: " t.

(** The formatted method of a level. *)
Definition formatted (lv : level.LogLevel) : Method :=
  match lv with
  | level.Fatal => Fatalf
  | level.Error => Errorf
  | level.Warn => Warnf
  | level.Info => Infof
  | level.Debug => Debugf
  | level.Trace => Tracef
  end.

(** The prefix of a record: the level tag, then the namespace when
    there is one. *)
Definition record_prefix (lv : level.LogLevel) (namespace : string) : string :=
  if negb (String.eqb namespace "")
  then stdLevelPrefix lv +:+ "(" +:+ namespace +:+ ") "
  else stdLevelPrefix lv.

(** The call that writes the message: formatted when there are format
    arguments, verbatim otherwise. *)
Definition first_line (lv : level.LogLevel) (namespace msg : string) (fmtArgs : list any)
  : stdLog.PrintfCall :=
  if (0 <? length fmtArgs)%nat
  then {| stdLog.format := record_prefix lv namespace +:+ msg +:+ fmt.nl;
          stdLog.args := fmtArgs |}
  else {| stdLog.format := "%s%s" +:+ fmt.nl;
          stdLog.args := [of_string (record_prefix lv namespace); of_string msg] |}.

(** The call that writes the request identifier, when there is one. *)
Definition request_lines (c : option logkContext.Context) : list stdLog.PrintfCall :=
  if negb (String.eqb (logkContext.GetRequestId c) "")
  then [ {| stdLog.format := "  > Request ID: %s" +:+ fmt.nl;
            stdLog.args := [of_string (logkContext.GetRequestId c)] |} ]
  else [].

(** The call that writes the carried error, when one is written. *)
Definition error_lines (lv : level.LogLevel) (o : Options) : list stdLog.PrintfCall :=
  match GetError o ErrorKey with
  | Some e => if level.le lv level.Error then [error_line e] else []
  | None => []
  end.

Section Rendering.

(** [json.Marshal], as in [logk.stdLogPrinter_Print]. *)
Variable json_Marshal : gmap string any -> option string.

(** The call that writes the metadata, when there is some and it
    encodes. *)
Definition metadata_lines (meta : gmap string any) : list stdLog.PrintfCall :=
  if (0 <? size meta)%nat then
    match json_Marshal meta with
    | Some metadata =>
        [ {| stdLog.format := "  > Metadata: %s" +:+ fmt.nl;
             stdLog.args := [of_bytes metadata] |} ]
    | None => []
    end
  else [].

(** The text the plain method of level [lv] writes on logger [l] for
    message [m] and no setter: [Print] with the logger's namespace, and
    options that carry the logger's context and nothing else. *)
Definition plain_method_text (l : StdLogger) (s : stdLogPrinter) (lv : level.LogLevel)
    (m : string) : option (list string) :=
  stdLog.entries
    (stdLogPrinter_Print json_Marshal s (namespace l) lv m
       (inject_ctx l (NewFormatOptions []))).

End Rendering.

(** An encoder that always fails.  The records below carry no metadata,
    so [Print] never consults it. *)
Definition no_json : gmap string any -> option string := fun _ => None.

(** The error [errors.New("boom")]. *)
Definition boom : GoError := {| err_type := "*errors.errorString"; err_text := "boom" |}.

(** ** Worlds *)

(** The value of an environment variable, empty when it is not set. *)
Definition getenv (w : World) (key : string) : string :=
  default "" (environ w !! key).

(** The logger [Get] falls back to in world [w]. *)
Definition fallback_of (w : World) : StdLogger :=
  fallback (getenv w EnvLogLevel) (getenv w EnvLogNamespace).

(** The bootstrap message, when the fallback logger lets Trace through. *)
Definition bootstrap_events (w : World) : list Event :=
  match call Trace (fallback_of w) bootstrap_message [] [] with
  | Ok calls => map Printed calls
  | Panic _ => []
  end.

(** The world after [Get] has installed the fallback logger. *)
Definition initialised (w : World) : World :=
  {| log := Some (StdLoggerPtr (length (loggers w)));
     loggers := (loggers w ++ [fallback_of w])%list;
     environ := environ w;
     events := (events w ++ bootstrap_events w)%list |}.

(** A pointer that refers to an object of the store; a custom logger is
    an object of the caller's. *)
Definition allocated (w : World) (l : Logger) : Prop :=
  match l with
  | StdLoggerPtr a => (a < length (loggers w))%nat
  | CustomLogger _ => True
  end.

(** A world with one standard logger allocated, nothing registered, and
    both environment variables set. *)
Definition custom_world : World :=
  {| log := None; loggers := [NewStdLogger None [Level level.Warn]];
     environ := {[ "LOG_LEVEL" := "debug"; "LOG_NAMESPACE" := "svc" ]}; events := [] |}.

(** A world with nothing allocated and nothing registered, where the
    environment asks for the Trace level. *)
Definition empty_world : World :=
  {| log := None; loggers := []; environ := {[ "LOG_LEVEL" := "trace" ]}; events := [] |}.

(** Both goroutines test [log == nil] before either registers. *)
Definition racy_schedule : list nat := [0; 1; 0; 0; 0; 0; 0; 0; 1; 1; 1; 1; 1; 1]%nat.

(** ** Further vocabulary *)

(** The context [print] hands to the printer: the one of the options
    when they carry one, the logger's otherwise. *)
Definition chosen_Context (l : StdLogger) (o : Options) : option logkContext.Context :=
  match Context o with
  | Some c => Some c
  | None => ctx l
  end.

(** The printer [NewStdLogger] installs for a given argument: the
    argument, or the bundled printer on standard output when it is nil. *)
Definition default_printer (p : option Printer) : Printer :=
  match p with
  | Some p => p
  | None => StdLogPrinter (NewStdLogPrinter None stdLog.LstdFlags)
  end.

(** A setter that leaves the context alone. *)
Definition keeps_Context (f : SetterFunc) : Prop :=
  forall o, Context (f o) = Context o.

(** The call of [Print] that carries the bootstrap message of [Get]. *)
Definition bootstrap_call (w : World) : PrintCall :=
  {| on_printer := StdLogPrinter (NewStdLogPrinter (Some stdLog.Stdout) stdLog.LstdFlags);
     arg_namespace := getenv w EnvLogNamespace;
     arg_level := level.Trace;
     arg_msg := bootstrap_message;
     arg_options := zero_Options |}.






(** A goroutine between [Lock] and the deferred [Unlock]. *)
Definition critical (p : pc) : bool :=
  match p with
  | AtStore _ | AtUnlock => true
  | _ => false
  end.

(** The number of goroutines between [Lock] and [Unlock]. *)
Definition in_critical (ts : list pc) : nat :=
  length (filter (fun p => critical p = true) ts).

(** 1 when the lock is held, 0 when it is free. *)
Definition lock_count (m : option nat) : nat :=
  match m with
  | Some _ => 1
  | None => 0
  end.

Definition b2n (b : bool) : nat := if b then 1 else 0.

(** The lock is held exactly when one goroutine is inside. *)
Definition exclusive (c : Config) : Prop :=
  in_critical (threads c) = lock_count (logMutex (shared c)).


(** The format of the call that writes the request line. *)
Definition request_format : string := "  > Request ID: %s" +:+ fmt.nl.

(** The format of the call that writes the metadata line. *)
Definition metadata_format : string := "  > Metadata: %s" +:+ fmt.nl.

(** A call that writes the request line. *)
Definition is_request_line (c : stdLog.PrintfCall) : bool :=
  String.eqb (stdLog.format c) request_format.

(** A call that writes the metadata line. *)
Definition is_metadata_line (c : stdLog.PrintfCall) : bool :=
  String.eqb (stdLog.format c) metadata_format.

(** A goroutine that has not tested the slot yet, or found it set, or
    returned logger [l]. *)
Definition waiting_or_done (l : Logger) (p : pc) : Prop :=
  p = AtCheck \/ p = AtReturn \/ p = Done (Some l).

(** The invariant of callers of [Get] on a registry that holds [l]. *)
Definition settled (w : World) (l : Logger) (c : Config) : Prop :=
  shared c = {| world := w; logMutex := None |} /\
  Forall (waiting_or_done l) (threads c).

(** A context that carries a request identifier. *)
Definition request_ctx : logkContext.Context := {| logkContext.requestId := "req-7" |}.

(** A logger on the bundled printer, with threshold Info, namespace
    "api" and an ambient context. *)
Definition api_logger : StdLogger :=
  NewStdLogger None [Level level.Info; WithNamespace "api"; WithContext (Some request_ctx)].

(** The bundled printer on standard output. *)
Definition stdout_printer : stdLogPrinter :=
  NewStdLogPrinter (Some stdLog.Stdout) stdLog.LstdFlags.

(** Options that carry metadata and nothing else. *)
Definition meta_options : Options :=
  WithMetadata {[ "user" := of_string "ann" ]} zero_Options.

(** Options that carry the error [boom] and nothing else. *)
Definition error_options : Options := logkOption.Error (Some boom) zero_Options.

(** A world where a standard logger is registered. *)
Definition registered_world : World :=
  {| log := Some (StdLoggerPtr 0); loggers := [api_logger]; environ := ∅; events := [] |}.

(** * Properties *)

(** ** Levels *)

Lemma gt_spec (a b : level.LogLevel) :
  level.gt a b = true <-> (level.ordinal b < level.ordinal a)%Z.
Proof. unfold level.gt. apply Z.ltb_lt. Qed.

Lemma gt_false (a b : level.LogLevel) :
  level.gt a b = false <-> (level.ordinal a <= level.ordinal b)%Z.
Proof. unfold level.gt. apply Z.ltb_ge. Qed.

Lemma le_spec (a b : level.LogLevel) :
  level.le a b = true <-> (level.ordinal a <= level.ordinal b)%Z.
Proof. unfold level.le. apply Z.leb_le. Qed.

Lemma ordinal_inj (a b : level.LogLevel) :
  level.ordinal a = level.ordinal b -> a = b.
Proof. destruct a, b; simpl; intros H; try reflexivity; discriminate H. Qed.

Lemma ordinal_zero (a : level.LogLevel) :
  (level.ordinal a <= level.ordinal level.Fatal)%Z <-> a = level.Fatal.
Proof. destruct a; simpl; split; intros H; try reflexivity; try lia; discriminate H. Qed.

Example Parse_examples :
  level.Parse "" = level.Info /\ level.Parse "bogus" = level.Info /\
  level.Parse "info" = level.Info /\ level.Parse "INFO" = level.Info /\
  level.Parse "Trace" = level.Trace /\ level.Parse "fatal" = level.Fatal.
Proof. repeat split. Qed.

(** ** Evaluation of setters *)

Lemma Evaluate_snoc (args : list SetterFunc) (f : SetterFunc) :
  Evaluate (args ++ [f]) = f (Evaluate args).
Proof. unfold Evaluate. rewrite fold_left_app. reflexivity. Qed.

Lemma GetString_WithNamespace (s : string) (o : Options) :
  GetString (WithNamespace s o) NamespaceKey = (s, true).
Proof.
  unfold GetString, WithNamespace, index. simpl.
  rewrite lookup_insert_eq. reflexivity.
Qed.

Lemma GetString_Level (lv : level.LogLevel) (o : Options) (k : string) :
  GetString (Level lv o) k = GetString o k.
Proof. reflexivity. Qed.

Lemma keeps_level_WithNamespace s : keeps_level (WithNamespace s).
Proof. intros o. reflexivity. Qed.

Lemma keeps_level_WithContext c : keeps_level (WithContext c).
Proof. intros o. reflexivity. Qed.

Lemma keeps_level_WithMetadata m : keeps_level (WithMetadata m).
Proof. intros o. reflexivity. Qed.

Lemma keeps_level_Error e : keeps_level (logkOption.Error e).
Proof. intros o. reflexivity. Qed.

Lemma Evaluate_keeps_level (args : list SetterFunc) :
  Forall keeps_level args -> Level_ (Evaluate args) = level.zero.
Proof.
  induction args as [|f args IH] using rev_ind; intros H.
  - reflexivity.
  - apply Forall_app in H as [Hargs Hf]. rewrite Evaluate_snoc.
    inversion Hf as [|? ? Hk _]; subst. rewrite Hk. apply IH, Hargs.
Qed.

(** ** The level gate *)

Lemma print_passes l p outLevel msg options :
  printer l = Some p ->
  (level.ordinal outLevel <= level.ordinal (level l))%Z ->
  StdLogger_print l outLevel msg options =
    Ok [ {| on_printer := p; arg_namespace := namespace l; arg_level := outLevel;
            arg_msg := msg; arg_options := inject_ctx l options |} ].
Proof.
  intros Hp Hle. unfold StdLogger_print.
  apply gt_false in Hle. rewrite Hle, Hp. reflexivity.
Qed.

Lemma print_stops l outLevel msg options :
  (level.ordinal (level l) < level.ordinal outLevel)%Z ->
  StdLogger_print l outLevel msg options = Ok [].
Proof.
  intros Hlt. unfold StdLogger_print. apply gt_spec in Hlt. rewrite Hlt. reflexivity.
Qed.

(** Every one of the twelve methods is [print] at the method's level. *)
Lemma call_is_print m l msg setters fargs :
  exists options, call m l msg setters fargs = StdLogger_print l (method_level m) msg options.
Proof. destruct m; simpl; eexists; reflexivity. Qed.

Lemma NewStdLogger_printer pr args : exists p, printer (NewStdLogger pr args) = Some p.
Proof. destruct pr; simpl; eexists; reflexivity. Qed.

Lemma NewChild_printer l args : exists p, printer (StdLogger_NewChild l args) = Some p.
Proof.
  unfold StdLogger_NewChild.
  destruct (GetString (Evaluate args) NamespaceKey) as [ns b].
  destruct (Context (Evaluate args)); simpl; destruct (printer l); eexists; reflexivity.
Qed.

(** C1: on a logger with threshold T whose printer is set (as the
    constructor guarantees), a call of any of the twelve methods, at level
    L, invokes the printer's Print exactly when ordinal(L) <= ordinal(T),
    and then once, with the logger's namespace, L and the message; when
    ordinal(L) > ordinal(T) the call returns without any invocation. *)
Theorem print_level_gate (l : StdLogger) (p : Printer) (m : Method) (msg : string)
    (setters : list SetterFunc) (fargs : list any) :
  printer l = Some p ->
  ((level.ordinal (method_level m) <= level.ordinal (level l))%Z <->
   exists c, call m l msg setters fargs = Ok [c] /\ on_printer c = p /\
             arg_namespace c = namespace l /\ arg_level c = method_level m /\
             arg_msg c = msg) /\
  ((level.ordinal (level l) < level.ordinal (method_level m))%Z <->
   call m l msg setters fargs = Ok []).
Proof.
  intros Hp. destruct (call_is_print m l msg setters fargs) as [o Ho]. rewrite Ho.
  destruct (Z_le_gt_dec (level.ordinal (method_level m)) (level.ordinal (level l)))
    as [Hle | Hgt].
  - rewrite (print_passes _ _ _ _ _ Hp Hle). split; split.
    + intros _. eexists. split; [reflexivity | simpl; auto].
    + intros _. exact Hle.
    + intros Hlt. lia.
    + intros H. discriminate H.
  - assert (Hlt : (level.ordinal (level l) < level.ordinal (method_level m))%Z) by lia.
    rewrite (print_stops _ _ _ _ Hlt). split; split.
    + intros Hle. lia.
    + intros [c [H _]]. discriminate H.
    + reflexivity.
    + intros _. exact Hlt.
Qed.

(** The spec's example for C1: threshold Info, a Debug call does not reach
    the printer. *)
Lemma print_level_gate_witness :
  let l := NewStdLogger (Some (CustomPrinter 0)) [Level level.Info] in
  printer l = Some (CustomPrinter 0) /\
  ((level.ordinal (method_level Debug) <= level.ordinal (level l))%Z <->
   exists c, call Debug l "m" [] [] = Ok [c] /\ on_printer c = CustomPrinter 0 /\
             arg_namespace c = namespace l /\ arg_level c = method_level Debug /\
             arg_msg c = "m") /\
  ((level.ordinal (level l) < level.ordinal (method_level Debug))%Z <->
   call Debug l "m" [] [] = Ok []).
Proof.
  split; [reflexivity |].
  exact (print_level_gate (NewStdLogger (Some (CustomPrinter 0)) [Level level.Info])
           (CustomPrinter 0) Debug "m" [] [] eq_refl).
Defined.

(** The zero [StdLogger], which no constructor returns, has no printer:
    a call that passes the gate panics instead of printing. *)
Example zero_StdLogger_panics :
  call Fatal zero_StdLogger "m" [] [] = Panic nil_dereference.
Proof. reflexivity. Qed.

(** C10: a logger built by NewStdLogger from setters none of which sets
    the level has the zero level, Fatal, as its threshold; every call of
    Error, Warn, Info, Debug or Trace (plain or formatted) on it returns
    without invoking the printer, and every Fatal call invokes it. *)
Theorem NewStdLogger_default_threshold (pr : option Printer) (args : list SetterFunc)
    (m : Method) (msg : string) (setters : list SetterFunc) (fargs : list any) :
  Forall keeps_level args ->
  level (NewStdLogger pr args) = level.Fatal /\
  level.ordinal (level (NewStdLogger pr args)) = 0%Z /\
  (method_level m <> level.Fatal ->
   call m (NewStdLogger pr args) msg setters fargs = Ok []) /\
  (method_level m = level.Fatal ->
   exists c, call m (NewStdLogger pr args) msg setters fargs = Ok [c]).
Proof.
  intros Hk.
  assert (Hl : level (NewStdLogger pr args) = level.Fatal)
    by (simpl; apply Evaluate_keeps_level, Hk).
  destruct (NewStdLogger_printer pr args) as [p Hp].
  destruct (call_is_print m (NewStdLogger pr args) msg setters fargs) as [o ->].
  split; [exact Hl |]. split; [rewrite Hl; reflexivity |]. split.
  - intros Hm. apply print_stops. rewrite Hl.
    destruct (method_level m); simpl; try lia. congruence.
  - intros Hm. eexists. apply (print_passes _ p); [exact Hp |].
    rewrite Hl, Hm. reflexivity.
Qed.

Lemma NewStdLogger_default_threshold_witness :
  Forall keeps_level [WithNamespace "api"] /\
  level (NewStdLogger None [WithNamespace "api"]) = level.Fatal /\
  level.ordinal (level (NewStdLogger None [WithNamespace "api"])) = 0%Z /\
  (method_level Error <> level.Fatal ->
   call Error (NewStdLogger None [WithNamespace "api"]) "m" [] [] = Ok []) /\
  (method_level Error = level.Fatal ->
   exists c, call Error (NewStdLogger None [WithNamespace "api"]) "m" [] [] = Ok [c]).
Proof.
  assert (H : Forall keeps_level [WithNamespace "api"])
    by (constructor; [apply keeps_level_WithNamespace | constructor]).
  split; [exact H |].
  exact (NewStdLogger_default_threshold None [WithNamespace "api"] Error "m" [] [] H).
Defined.

(** ** Child loggers *)

Lemma eqb_empty (s : string) : String.eqb s "" = true <-> s = "".
Proof. apply String.eqb_eq. Qed.

Lemma NewStdLogger_namespace pr args :
  namespace (NewStdLogger pr args) = override args.
Proof.
  unfold override. simpl.
  destruct (GetString (Evaluate args) NamespaceKey) as [ns b]. simpl.
  destruct (String.eqb ns "") eqn:E; simpl; [| reflexivity].
  apply eqb_empty in E. congruence.
Qed.

Lemma NewStdLogger_level pr args :
  level (NewStdLogger pr args) = Level_ (Evaluate args).
Proof. reflexivity. Qed.

Lemma set_ctx_namespace c l : namespace (set_ctx c l) = namespace l.
Proof. reflexivity. Qed.

Lemma set_ctx_level c l : level (set_ctx c l) = level l.
Proof. reflexivity. Qed.

(** The arguments [NewChild] passes on to the constructor. *)
Lemma NewChild_unfold l args :
  exists c,
    StdLogger_NewChild l args =
      c (NewStdLogger (printer l)
           ((if String.eqb (override args) "" && negb (String.eqb (namespace l) "")
             then args ++ [WithNamespace (namespace l)] else args) ++ [Level (level l)])%list) /\
    (forall x, namespace (c x) = namespace x) /\
    (forall x, level (c x) = level x).
Proof.
  unfold StdLogger_NewChild, override.
  destruct (GetString (Evaluate args) NamespaceKey) as [ns b]. simpl.
  destruct (Context (Evaluate args)) as [c|].
  - exists (set_ctx (Some c)). repeat split.
  - exists (fun x => x). repeat split.
Qed.

Lemma NewChild_level l args : level (StdLogger_NewChild l args) = level l.
Proof.
  destruct (NewChild_unfold l args) as [c [-> [_ Hl]]].
  rewrite Hl, NewStdLogger_level, Evaluate_snoc. reflexivity.
Qed.

Lemma NewChild_inherits l args :
  override args = "" -> namespace (StdLogger_NewChild l args) = namespace l.
Proof.
  intros Ho. destruct (NewChild_unfold l args) as [c [-> [Hn _]]].
  rewrite Hn, NewStdLogger_namespace, Ho. simpl.
  destruct (String.eqb (namespace l) "") eqn:E; simpl; unfold override.
  - rewrite Evaluate_snoc, GetString_Level. apply eqb_empty in E.
    fold (override args). congruence.
  - rewrite !Evaluate_snoc, GetString_Level, GetString_WithNamespace. reflexivity.
Qed.

Lemma NewChild_overrides l args :
  override args <> "" -> namespace (StdLogger_NewChild l args) = override args.
Proof.
  intros Ho. destruct (NewChild_unfold l args) as [c [-> [Hn _]]].
  rewrite Hn, NewStdLogger_namespace.
  destruct (String.eqb (override args) "") eqn:E.
  - apply eqb_empty in E. contradiction.
  - simpl. unfold override at 1. rewrite Evaluate_snoc, GetString_Level. reflexivity.
Qed.

Lemma descend_snoc l chain args :
  descend l (chain ++ [args]) = StdLogger_NewChild (descend l chain) args.
Proof. unfold descend. rewrite fold_left_app. reflexivity. Qed.

Lemma descend_inherits l chain :
  Forall (fun args => override args = "") chain ->
  namespace (descend l chain) = namespace l.
Proof.
  induction chain as [|args chain IH] using rev_ind; intros H.
  - reflexivity.
  - apply Forall_app in H as [Hc Ha]. inversion Ha as [|? ? Ho _]; subst.
    rewrite descend_snoc, NewChild_inherits by exact Ho. apply IH, Hc.
Qed.

Lemma descend_level l chain : level (descend l chain) = level l.
Proof.
  induction chain as [|args chain IH] using rev_ind.
  - reflexivity.
  - rewrite descend_snoc, NewChild_level. exact IH.
Qed.

(** C3: for every parent and every setter list given to NewChild, when
    the setters carry no namespace override, or an empty one, and the
    parent's namespace is not empty, the child has the parent's namespace;
    when they carry a non-empty override the child has that override; and
    this carries over to every further descendant derived without an
    override (grandchildren and beyond). *)
Theorem NewChild_namespace (l : StdLogger) (args : list SetterFunc) :
  (override args = "" -> namespace l <> "" ->
   namespace (StdLogger_NewChild l args) = namespace l) /\
  (override args <> "" ->
   namespace (StdLogger_NewChild l args) = override args) /\
  (forall chain, Forall (fun a => override a = "") chain ->
     (override args = "" -> namespace l <> "" ->
      namespace (descend (StdLogger_NewChild l args) chain) = namespace l) /\
     (override args <> "" ->
      namespace (descend (StdLogger_NewChild l args) chain) = override args)).
Proof.
  split; [| split].
  - intros Ho _. apply NewChild_inherits, Ho.
  - apply NewChild_overrides.
  - intros chain Hc. split.
    + intros Ho _. rewrite descend_inherits by exact Hc. apply NewChild_inherits, Ho.
    + intros Ho. rewrite descend_inherits by exact Hc. apply NewChild_overrides, Ho.
Qed.

(** The spec's example for C3: parent "api"; a child without override is
    in "api", a child with override "users" is in "users", and so is the
    grandchild derived from it without override. *)
Lemma NewChild_namespace_witness :
  let parent := NewStdLogger None [WithNamespace "api"; Level level.Debug] in
  namespace parent = "api" /\
  namespace (StdLogger_NewChild parent []) = "api" /\
  namespace (StdLogger_NewChild parent [WithNamespace "users"]) = "users" /\
  namespace (descend (StdLogger_NewChild parent [WithNamespace "users"]) [[]]) = "users".
Proof.
  intros parent.
  assert (Hp : namespace parent = "api") by reflexivity.
  assert (Hu : override [WithNamespace "users"] = "users") by reflexivity.
  assert (Hne : override [WithNamespace "users"] <> "") by (rewrite Hu; discriminate).
  assert (Hc : Forall (fun a => override a = "") [[]])
    by (constructor; [reflexivity | constructor]).
  destruct (NewChild_namespace parent []) as [H1 _].
  destruct (NewChild_namespace parent [WithNamespace "users"]) as [_ [H2 H3]].
  split; [exact Hp |]. split.
  - transitivity (namespace parent); [| exact Hp].
    apply H1; [reflexivity | rewrite Hp; discriminate].
  - split.
    + transitivity (override [WithNamespace "users"]); [exact (H2 Hne) | exact Hu].
    + transitivity (override [WithNamespace "users"]); [| exact Hu].
      exact (proj2 (H3 _ Hc) Hne).
Defined.

(** C4: for every parent and every setter list given to NewChild, a
    Level setter among them or not, the child's threshold is the parent's;
    the same holds for every descendant. *)
Theorem NewChild_threshold (l : StdLogger) (args : list SetterFunc)
    (lv : level.LogLevel) (before after : list SetterFunc) :
  level (StdLogger_NewChild l args) = level l /\
  level (StdLogger_NewChild l (before ++ Level lv :: after)) = level l /\
  (forall chain, level (descend l chain) = level l).
Proof.
  split; [apply NewChild_level |]. split; [apply NewChild_level |].
  intros chain. apply descend_level.
Qed.

(** The spec's example for C4, and a child asked for another level. *)
Example NewChild_threshold_example :
  let parent := NewStdLogger None [Level level.Debug] in
  level (StdLogger_NewChild parent []) = level.Debug /\
  level (StdLogger_NewChild parent [Level level.Error]) = level.Debug.
Proof. split; apply NewChild_level. Qed.

(** ** The typed getters *)

(** C8: for every Options value and key, when the value stored under the
    key is not of type string, GetString returns the empty string and
    false; GetError returns nil when the stored value is not an error; the
    other typed getters answer not-found in the same way.  A stored string
    is returned as it is, so no getter converts. *)
Theorem typed_getters_exact (o : Options) (k : string) (v : any) :
  Values o !! k = Some v ->
  (is_string v = false -> GetString o k = ("", false)) /\
  (is_error v = false -> GetError o k = None) /\
  (is_int64 v = false -> GetInt64 o k = (0%Z, false)) /\
  (is_time v = false -> GetTime o k = (zero_Time, false)) /\
  (forall s, v = of_string s -> GetString o k = (s, true)) /\
  (forall e, v = of_error e -> GetError o k = Some e).
Proof.
  intros Hv. unfold GetString, GetError, GetInt64, GetTime, index. rewrite Hv. simpl.
  repeat split; intros; subst; try reflexivity; destruct v; try reflexivity; discriminate.
Qed.

(** The spec's example for C8: a key that stores an int64. *)
Lemma typed_getters_exact_witness :
  let o := set_Values {[ "count" := of_int64 42 ]} zero_Options in
  Values o !! "count" = Some (of_int64 42) /\
  GetString o "count" = ("", false) /\
  GetError o "count" = None.
Proof.
  intros o.
  assert (Hv : Values o !! "count" = Some (of_int64 42)) by reflexivity.
  destruct (typed_getters_exact o "count" (of_int64 42) Hv) as [Hs [He _]].
  split; [exact Hv |]. split; [apply Hs | apply He]; reflexivity.
Defined.

(** X13: a key that stores nothing reads as nil, which no getter
    accepts: each returns its zero value and not-found (nil for
    GetError). *)
Lemma typed_getters_missing (o : Options) (k : string) :
  Values o !! k = None ->
  GetString o k = ("", false) /\ GetError o k = None /\
  GetInt64 o k = (0%Z, false) /\ GetTime o k = (zero_Time, false).
Proof.
  intros Hv. unfold GetString, GetError, GetInt64, GetTime, index. rewrite Hv.
  repeat split.
Qed.

(** ** Formatting *)

Lemma append_cons (c : ascii) (s t : string) :
  String c s +:+ t = String c (s +:+ t).
Proof. reflexivity. Qed.

Lemma append_empty_r (s : string) : s +:+ "" = s.
Proof. induction s as [|c s IH]; [reflexivity |]. rewrite append_cons, IH. reflexivity. Qed.

Lemma append_assoc (s t u : string) : (s +:+ t) +:+ u = s +:+ t +:+ u.
Proof.
  induction s as [|c s IH]; [reflexivity |]. rewrite !append_cons, IH. reflexivity.
Qed.

Lemma ends_with_newline_nl (s : string) :
  stdLog.ends_with_newline (s +:+ fmt.nl) = true.
Proof.
  induction s as [|c s IH]; [reflexivity |].
  destruct s as [|c' s]; [reflexivity |]. exact IH.
Qed.

Lemma ends_with_newline_app (s t : string) :
  stdLog.ends_with_newline (s +:+ t +:+ fmt.nl) = true.
Proof. rewrite <- append_assoc. apply ends_with_newline_nl. Qed.

Lemma plain_app (s t : string) :
  fmt.plain (s +:+ t) = fmt.plain s && fmt.plain t.
Proof.
  induction s as [|c s IH]; [reflexivity |].
  simpl. rewrite IH. apply andb_assoc.
Qed.

Lemma plain_stdLevelPrefix (lv : level.LogLevel) : fmt.plain (stdLevelPrefix lv) = true.
Proof. destruct lv; reflexivity. Qed.

(** Text without a percent sign passes through unchanged and takes no
    operand. *)
Lemma doPrintf_plain_prefix (p f : string) (a : list any) :
  fmt.plain p = true ->
  fmt.doPrintf (p +:+ f) a =
    match fmt.doPrintf f a with
    | Some (out, r) => Some (p +:+ out, r)
    | None => None
    end.
Proof.
  induction p as [|c p IH]; intros Hp.
  - change ("" +:+ f) with f.
    destruct (fmt.doPrintf f a) as [[out r]|]; reflexivity.
  - simpl in Hp. apply andb_true_iff in Hp as [Hc Hp].
    apply negb_true_iff in Hc.
    change (String c p +:+ f) with (String c (p +:+ f)).
    cbn [fmt.doPrintf]. rewrite Hc, (IH Hp).
    destruct (fmt.doPrintf f a) as [[out r]|]; reflexivity.
Qed.

Lemma doPrintf_plain (f : string) (a : list any) :
  fmt.plain f = true -> fmt.doPrintf f a = Some (f, a).
Proof.
  intros Hf. pose proof (doPrintf_plain_prefix f "" a Hf) as H.
  rewrite append_empty_r in H. cbn [fmt.doPrintf] in H.
  rewrite append_empty_r in H. exact H.
Qed.

(** A newline appended to a format that does not end in a lone percent
    sign is appended to the text, and the operands left over are the
    same. *)
Lemma doPrintf_newline (n : nat) :
  forall (f : string) (a : list any) (out : string) (r : list any),
    (String.length f <= n)%nat ->
    fmt.dangling f = false ->
    fmt.doPrintf f a = Some (out, r) ->
    fmt.doPrintf (f +:+ fmt.nl) a = Some (out +:+ fmt.nl, r).
Proof.
  induction n as [|n IH]; intros f a out r Hlen Hd Hf.
  - destruct f; [| simpl in Hlen; lia].
    simpl in Hf. injection Hf as <- <-. reflexivity.
  - destruct f as [|c rest].
    { simpl in Hf. injection Hf as <- <-. reflexivity. }
    change (String c rest +:+ fmt.nl) with (String c (rest +:+ fmt.nl)).
    cbn [fmt.doPrintf fmt.dangling] in *.
    destruct (Ascii.eqb c "%") eqn:Ec.
    + destruct rest as [|verb rest']; [discriminate Hd |].
      change (String verb rest' +:+ fmt.nl) with (String verb (rest' +:+ fmt.nl)).
      cbn [fmt.doPrintf].
      assert (Hlen' : (String.length rest' <= n)%nat) by (simpl in Hlen; lia).
      destruct (Ascii.eqb verb "%").
      * destruct (fmt.doPrintf rest' a) as [[o1 r1]|] eqn:E1; [| discriminate Hf].
        injection Hf as <- <-. rewrite (IH _ _ _ _ Hlen' Hd E1). reflexivity.
      * destruct (fmt.simple_verb verb); [| discriminate Hf].
        destruct a as [|x a'].
        -- destruct (fmt.doPrintf rest' []) as [[o1 r1]|] eqn:E1; [| discriminate Hf].
           injection Hf as <- <-. rewrite (IH _ _ _ _ Hlen' Hd E1). reflexivity.
        -- destruct (fmt.printArg x verb) as [sx|]; [| discriminate Hf].
           destruct (fmt.doPrintf rest' a') as [[o1 r1]|] eqn:E1; [| discriminate Hf].
           injection Hf as <- <-. rewrite (IH _ _ _ _ Hlen' Hd E1).
           rewrite append_assoc. reflexivity.
    + assert (Hlen' : (String.length rest <= n)%nat) by (simpl in Hlen; lia).
      destruct (fmt.doPrintf rest a) as [[o1 r1]|] eqn:E1; [| discriminate Hf].
      injection Hf as <- <-. rewrite (IH _ _ _ _ Hlen' Hd E1). reflexivity.
Qed.

(** In stdlogger.go the namespace is appended to the prefix by
    [fmt.Sprintf("%s(%s) ", prefix, namespace)]; on two strings that is
    the concatenation [stdLogPrinter_Print] uses. *)
Lemma Sprintf_prefix (prefix namespace : string) :
  fmt.Sprintf "%s(%s) " [of_string prefix; of_string namespace] =
    Some (prefix +:+ "(" +:+ namespace +:+ ") ").
Proof. reflexivity. Qed.

(** The first line when there are no format arguments. *)
Lemma Printf_literal (prefix msg : string) :
  stdLog.Printf {| stdLog.format := "%s%s" +:+ fmt.nl;
                   stdLog.args := [of_string prefix; of_string msg] |} =
    Some (prefix +:+ msg +:+ fmt.nl).
Proof.
  unfold stdLog.Printf. cbn [stdLog.format stdLog.args].
  change (fmt.Sprintf ("%s%s" +:+ fmt.nl) [of_string prefix; of_string msg])
    with (Some (prefix +:+ msg +:+ fmt.nl)).
  cbn [mbind option_bind]. rewrite ends_with_newline_app. reflexivity.
Qed.

(** The first line when there are format arguments and the prefix holds
    no percent sign. *)
Lemma Printf_formatted (prefix format m : string) (args : list any) :
  fmt.plain prefix = true ->
  fmt.dangling format = false ->
  fmt.doPrintf format args = Some (m, []) ->
  stdLog.Printf {| stdLog.format := prefix +:+ format +:+ fmt.nl; stdLog.args := args |} =
    Some (prefix +:+ m +:+ fmt.nl).
Proof.
  intros Hp Hd Hf. unfold stdLog.Printf, fmt.Sprintf. cbn [stdLog.format stdLog.args].
  rewrite (doPrintf_plain_prefix _ _ _ Hp).
  rewrite (doPrintf_newline _ _ _ _ _ (le_n _) Hd Hf).
  cbn [mbind option_bind]. rewrite ends_with_newline_app. reflexivity.
Qed.

Lemma Printf_request (reqId : string) :
  stdLog.Printf {| stdLog.format := "  > Request ID: %s" +:+ fmt.nl;
                   stdLog.args := [of_string reqId] |} =
    Some ("  > Request ID: " +:+ reqId +:+ fmt.nl).
Proof.
  unfold stdLog.Printf. cbn [stdLog.format stdLog.args].
  change (fmt.Sprintf ("  > Request ID: %s" +:+ fmt.nl) [of_string reqId])
    with (Some ("  > Request ID: " +:+ reqId +:+ fmt.nl)).
  cbn [mbind option_bind].
  rewrite ends_with_newline_app. reflexivity.
Qed.

Lemma Printf_error (e : GoError) :
  stdLog.Printf {| stdLog.format := "  > Error: %s" +:+ fmt.nl;
                   stdLog.args := [of_error e] |} =
    Some ("  > Error: " +:+ err_text e +:+ fmt.nl).
Proof.
  unfold stdLog.Printf. cbn [stdLog.format stdLog.args].
  change (fmt.Sprintf ("  > Error: %s" +:+ fmt.nl) [of_error e])
    with (Some ("  > Error: " +:+ err_text e +:+ fmt.nl)).
  cbn [mbind option_bind].
  rewrite ends_with_newline_app. reflexivity.
Qed.

(** ** The bundled printer *)

Lemma formatted_level lv : method_level (formatted lv) = lv.
Proof. destruct lv; reflexivity. Qed.

Lemma formatted_call lv l format args :
  call (formatted lv) l format [] args =
    StdLogger_print l lv format (NewFormatOptions args).
Proof. destruct lv; reflexivity. Qed.

Lemma GetError_Some (o : Options) (k : string) (e : GoError) :
  GetError o k = Some e <-> index (Values o) k = of_error e.
Proof.
  unfold GetError. destruct (index (Values o) k); split; intros H;
    try discriminate H; congruence.
Qed.

Lemma inject_ctx_fields l o :
  Values (inject_ctx l o) = Values o /\ Metadata (inject_ctx l o) = Metadata o /\
  FmtArgs (inject_ctx l o) = FmtArgs o.
Proof. unfold inject_ctx. destruct (ctx l), (Context o); repeat split. Qed.

Lemma inject_ctx_Context l a b :
  Context (inject_ctx l (NewFormatOptions a)) = Context (inject_ctx l (NewFormatOptions b)).
Proof. unfold inject_ctx. destruct (ctx l); reflexivity. Qed.

Section PrinterProperties.

Variable json_Marshal : gmap string any -> option string.

(** [Print] makes its calls in four groups. *)
Lemma Print_groups s namespace lv msg o :
  stdLogPrinter_Print json_Marshal s namespace lv msg o =
    (first_line lv namespace msg (FmtArgs o) :: request_lines (Context o) ++
     error_lines lv o ++ metadata_lines json_Marshal (Metadata o))%list.
Proof. reflexivity. Qed.

Lemma record_prefix_bracket lv namespace :
  exists rest, record_prefix lv namespace = String "[" rest.
Proof.
  unfold record_prefix. destruct (negb (String.eqb namespace "")), lv;
    eexists; reflexivity.
Qed.

Lemma first_line_not_error lv namespace msg fmtArgs :
  is_error_line (first_line lv namespace msg fmtArgs) = false.
Proof.
  unfold first_line. destruct (0 <? length fmtArgs)%nat; [| reflexivity].
  destruct (record_prefix_bracket lv namespace) as [rest E].
  unfold is_error_line. cbn [stdLog.format]. rewrite E. reflexivity.
Qed.

Lemma request_lines_not_error c : existsb is_error_line (request_lines c) = false.
Proof.
  unfold request_lines.
  destruct (negb (String.eqb (logkContext.GetRequestId c) "")); reflexivity.
Qed.

Lemma metadata_lines_not_error meta : existsb is_error_line (metadata_lines json_Marshal meta) = false.
Proof.
  unfold metadata_lines. destruct (0 <? size meta)%nat; [| reflexivity].
  destruct (json_Marshal meta); reflexivity.
Qed.

Lemma Print_error_lines s namespace lv msg o :
  existsb is_error_line (stdLogPrinter_Print json_Marshal s namespace lv msg o) =
    existsb is_error_line (error_lines lv o).
Proof.
  rewrite Print_groups. cbn [existsb].
  rewrite first_line_not_error, !existsb_app, request_lines_not_error,
    metadata_lines_not_error.
  simpl. apply orb_false_r.
Qed.

(** C7: for every record the standard printer renders, the Error line
    is among the lines it writes if and only if a non-nil error value is
    stored under the reserved error key and the level's ordinal is at most
    that of Error (the level is Error or Fatal); the line then carries that
    error; at level Info no Error line is written, whatever is stored. *)
Theorem error_line_condition (s : stdLogPrinter) (namespace : string)
    (lv : level.LogLevel) (msg : string) (o : Options) :
  (existsb is_error_line (stdLogPrinter_Print json_Marshal s namespace lv msg o) = true <->
   (exists e, index (Values o) ErrorKey = of_error e) /\
   (level.ordinal lv <= level.ordinal level.Error)%Z) /\
  (forall e, index (Values o) ErrorKey = of_error e ->
             (level.ordinal lv <= level.ordinal level.Error)%Z ->
             In (error_line e) (stdLogPrinter_Print json_Marshal s namespace lv msg o) /\
             stdLog.Printf (error_line e) = Some ("  > Error: " +:+ err_text e +:+ fmt.nl)) /\
  existsb is_error_line
    (stdLogPrinter_Print json_Marshal s namespace level.Info msg o) = false.
Proof.
  split; [| split].
  - rewrite Print_error_lines. unfold error_lines. split.
    + destruct (GetError o ErrorKey) as [e|] eqn:E; [| discriminate].
      destruct (level.le lv level.Error) eqn:L; [| discriminate].
      intros _. split; [exists e; apply GetError_Some, E | apply le_spec, L].
    + intros [[e He] Hle]. apply GetError_Some in He. apply le_spec in Hle.
      rewrite He, Hle. reflexivity.
  - intros e He Hle. split; [| apply Printf_error].
    rewrite Print_groups. right. apply in_or_app. right. apply in_or_app. left.
    unfold error_lines. apply GetError_Some in He. apply le_spec in Hle.
    rewrite He, Hle. left. reflexivity.
  - rewrite Print_error_lines. unfold error_lines.
    destruct (GetError o ErrorKey); reflexivity.
Qed.

(** *** The error line in the text *)

Lemma doPrintf_head (c : ascii) (rest : string) (a : list any) (out : string) (r : list any) :
  Ascii.eqb c "%" = false ->
  fmt.doPrintf (String c rest) a = Some (out, r) ->
  exists out', out = String c out'.
Proof.
  intros Hc H. cbn [fmt.doPrintf] in H. rewrite Hc in H.
  destruct (fmt.doPrintf rest a) as [[o1 r1]|]; [| discriminate H].
  injection H as <- <-. eexists. reflexivity.
Qed.

Lemma Printf_head (c : ascii) (rest : string) (a : list any) (t : string) :
  Ascii.eqb c "%" = false ->
  stdLog.Printf {| stdLog.format := String c rest; stdLog.args := a |} = Some t ->
  exists t', t = String c t'.
Proof.
  intros Hc H. unfold stdLog.Printf, fmt.Sprintf in H. cbn [stdLog.format stdLog.args] in H.
  destruct (fmt.doPrintf (String c rest) a) as [[out r]|] eqn:E; [| discriminate H].
  destruct (doPrintf_head _ _ _ _ _ Hc E) as [out' ->].
  assert (Hs : forall s, fmt.Sprintf (String c rest) a = Some s -> exists s', s = String c s').
  { intros s0 Hs. unfold fmt.Sprintf in Hs. rewrite E in Hs. destruct r.
    - injection Hs as <-. eexists. reflexivity.
    - destruct (fmt.extra (a0 :: r)); [| discriminate Hs]. injection Hs as <-.
      eexists. reflexivity. }
  destruct (fmt.Sprintf (String c rest) a) as [s0|] eqn:Es.
  - destruct (Hs s0 eq_refl) as [s' ->]. unfold fmt.Sprintf in Es. rewrite E in Es.
    rewrite Es in H. cbn [mbind option_bind] in H.
    destruct (stdLog.ends_with_newline (String c s')); injection H as <-;
      eexists; reflexivity.
  - unfold fmt.Sprintf in Es. rewrite E in Es. rewrite Es in H. discriminate H.
Qed.

Lemma first_line_text lv namespace msg fmtArgs t :
  stdLog.Printf (first_line lv namespace msg fmtArgs) = Some t ->
  is_error_text t = false.
Proof.
  unfold first_line. destruct (record_prefix_bracket lv namespace) as [rest E].
  rewrite E. destruct (0 <? length fmtArgs)%nat; intros H.
  - rewrite append_cons in H. apply Printf_head in H as [t' ->]; reflexivity.
  - rewrite Printf_literal in H. injection H as <-. reflexivity.
Qed.

Lemma Printf_metadata (b : string) :
  stdLog.Printf {| stdLog.format := "  > Metadata: %s" +:+ fmt.nl;
                   stdLog.args := [of_bytes b] |} =
    Some ("  > Metadata: " +:+ b +:+ fmt.nl).
Proof.
  unfold stdLog.Printf. cbn [stdLog.format stdLog.args].
  change (fmt.Sprintf ("  > Metadata: %s" +:+ fmt.nl) [of_bytes b])
    with (Some ("  > Metadata: " +:+ b +:+ fmt.nl)).
  cbn [mbind option_bind].
  rewrite ends_with_newline_app. reflexivity.
Qed.

Lemma entries_app cs1 cs2 es :
  stdLog.entries (cs1 ++ cs2) = Some es ->
  exists es1 es2,
    stdLog.entries cs1 = Some es1 /\ stdLog.entries cs2 = Some es2 /\
    es = (es1 ++ es2)%list.
Proof.
  revert es. induction cs1 as [|c cs1 IH]; intros es H.
  - exists [], es. repeat split. exact H.
  - cbn [app stdLog.entries] in *.
    destruct (stdLog.Printf c) as [e|]; [| discriminate H]. cbn [mbind option_bind] in *.
    destruct (stdLog.entries (cs1 ++ cs2)) as [es'|] eqn:E; [| discriminate H].
    cbn [mbind option_bind] in H. injection H as <-.
    destruct (IH _ eq_refl) as [es1 [es2 [-> [H2 ->]]]].
    exists (e :: es1), es2. repeat split. exact H2.
Qed.

Lemma request_lines_text c es :
  stdLog.entries (request_lines c) = Some es -> existsb is_error_text es = false.
Proof.
  unfold request_lines.
  destruct (negb (String.eqb (logkContext.GetRequestId c) "")); cbn [stdLog.entries].
  - rewrite Printf_request. cbn [mbind option_bind]. intros H. injection H as <-.
    reflexivity.
  - intros H. injection H as <-. reflexivity.
Qed.

Lemma metadata_lines_text meta es :
  stdLog.entries (metadata_lines json_Marshal meta) = Some es ->
  existsb is_error_text es = false.
Proof.
  unfold metadata_lines. destruct (0 <? size meta)%nat.
  - destruct (json_Marshal meta) as [b|]; cbn [stdLog.entries].
    + rewrite Printf_metadata. cbn [mbind option_bind]. intros H. injection H as <-.
      reflexivity.
    + intros H. injection H as <-. reflexivity.
  - intros H. injection H as <-. reflexivity.
Qed.

Lemma error_lines_text lv o :
  exists es,
    stdLog.entries (error_lines lv o) = Some es /\
    (existsb is_error_text es = true <->
     (exists e, index (Values o) ErrorKey = of_error e) /\
     (level.ordinal lv <= level.ordinal level.Error)%Z).
Proof.
  unfold error_lines. destruct (GetError o ErrorKey) as [e|] eqn:E.
  - destruct (level.le lv level.Error) eqn:L.
    + eexists. split.
      * cbn [stdLog.entries]. unfold error_line, error_format. rewrite Printf_error.
        reflexivity.
      * split; [| intros _; reflexivity]. intros _.
        split; [exists e; apply GetError_Some, E | apply le_spec, L].
    + exists []. split; [reflexivity |]. split; [discriminate |].
      intros [_ Hle]. apply le_spec in Hle. congruence.
  - exists []. split; [reflexivity |]. split; [discriminate |].
    intros [[e He] _]. apply GetError_Some in He. congruence.
Qed.

(** X10: whenever a record renders, its text holds an entry that starts
    like the error line if and only if an error is stored under the error
    key and the level is Error or Fatal; neither the message line nor the
    request and metadata lines can pass for it. *)
Lemma error_text_condition s namespace lv msg o es :
  stdLog.entries (stdLogPrinter_Print json_Marshal s namespace lv msg o) = Some es ->
  (existsb is_error_text es = true <->
   (exists e, index (Values o) ErrorKey = of_error e) /\
   (level.ordinal lv <= level.ordinal level.Error)%Z).
Proof.
  rewrite Print_groups. intros H. cbn [stdLog.entries] in H.
  destruct (stdLog.Printf (first_line lv namespace msg (FmtArgs o))) as [t|] eqn:Et;
    [| discriminate H].
  cbn [mbind option_bind] in H.
  destruct (stdLog.entries _) as [rest|] eqn:Er; [| discriminate H].
  cbn [mbind option_bind] in H. injection H as <-.
  apply entries_app in Er as [es1 [es23 [H1 [H23 ->]]]].
  apply entries_app in H23 as [es2 [es3 [H2 [H3 ->]]]].
  destruct (error_lines_text lv o) as [es2' [H2' Hiff]].
  rewrite H2 in H2'. injection H2' as <-.
  cbn [existsb]. rewrite (first_line_text _ _ _ _ _ Et), !existsb_app,
    (request_lines_text _ _ H1), (metadata_lines_text _ _ H3).
  cbn [orb]. rewrite orb_false_r. exact Hiff.
Qed.

Lemma entries_cons c cs e es :
  stdLog.Printf c = Some e -> stdLog.entries cs = Some es ->
  stdLog.entries (c :: cs) = Some (e :: es).
Proof. intros Hc Hcs. cbn [stdLog.entries]. rewrite Hc, Hcs. reflexivity. Qed.

Lemma entries_request c : exists es, stdLog.entries (request_lines c) = Some es.
Proof.
  unfold request_lines.
  destruct (negb (String.eqb (logkContext.GetRequestId c) "")).
  - eexists. apply entries_cons; [apply Printf_request | reflexivity].
  - eexists. reflexivity.
Qed.

(** The lines after the first, for the options of a formatted call. *)
Lemma Print_format_options l s lv msg args :
  stdLogPrinter_Print json_Marshal s (namespace l) lv msg
      (inject_ctx l (NewFormatOptions args)) =
    (first_line lv (namespace l) msg args ::
     request_lines (Context (inject_ctx l (NewFormatOptions []))))%list.
Proof.
  rewrite Print_groups.
  destruct (inject_ctx_fields l (NewFormatOptions args)) as [Hv [Hm Hf]].
  unfold error_lines, GetError. rewrite Hv, Hm, Hf.
  rewrite (inject_ctx_Context l args []).
  cbn [NewFormatOptions set_FmtArgs zero_Options FmtArgs Values Metadata].
  unfold index. rewrite lookup_empty. cbn [default].
  unfold metadata_lines. rewrite map_size_empty. cbn [Nat.ltb Nat.leb].
  rewrite !app_nil_r. reflexivity.
Qed.

Lemma plain_record_prefix lv namespace :
  fmt.plain namespace = true -> fmt.plain (record_prefix lv namespace) = true.
Proof.
  intros Hn. unfold record_prefix. destruct (negb (String.eqb namespace "")).
  - rewrite !plain_app, plain_stdLevelPrefix, Hn. reflexivity.
  - apply plain_stdLevelPrefix.
Qed.

(** Where the formatted and the plain methods agree.  For a level that
    passes the gate, a namespace without a percent sign, and a format and
    arguments such that the directives (of the modelled verbs) consume
    every argument, the format does not end in a lone percent sign and,
    when there is no argument, holds no percent sign at all, the formatted
    method writes what the plain method of the level writes for the
    interpolated message. *)
Lemma formatted_matches_plain (l : StdLogger) (s : stdLogPrinter)
    (lv : level.LogLevel) (format : string) (args : list any) (m : string) :
  (level.ordinal lv <= level.ordinal (level l))%Z ->
  printer l = Some (StdLogPrinter s) ->
  fmt.plain (namespace l) = true ->
  fmt.doPrintf format args = Some (m, []) ->
  fmt.dangling format = false ->
  (args = [] -> fmt.plain format = true) ->
  fmt.Sprintf format args = Some m /\
  exists text,
    text_of json_Marshal (call (formatted lv) l format [] args) = Some text /\
    plain_method_text json_Marshal l s lv m = Some text.
Proof.
  intros Hgate Hp Hns Hf Hd Hargs.
  split; [unfold fmt.Sprintf; rewrite Hf; reflexivity |].
  rewrite formatted_call, (print_passes _ _ _ _ _ Hp Hgate).
  unfold text_of, written, plain_method_text. cbn [flat_map on_printer arg_namespace arg_level
    arg_msg arg_options]. rewrite app_nil_r, !Print_format_options.
  destruct (entries_request (Context (inject_ctx l (NewFormatOptions [])))) as [es Hes].
  exists ((record_prefix lv (namespace l) +:+ m +:+ fmt.nl) :: es).
  pose proof (plain_record_prefix lv _ Hns) as Hpre.
  split; apply entries_cons; try exact Hes.
  - unfold first_line. destruct args as [|x args].
    + rewrite (doPrintf_plain _ _ (Hargs eq_refl)) in Hf. injection Hf as <-.
      apply Printf_literal.
    + apply Printf_formatted; assumption.
  - apply Printf_literal.
Qed.

(** [plain_method_text] is the text of the plain method, called with the
    message and no setter. *)
Lemma plain_method_text_call (l : StdLogger) (s : stdLogPrinter)
    (lv : level.LogLevel) (m : string) :
  (level.ordinal lv <= level.ordinal (level l))%Z ->
  printer l = Some (StdLogPrinter s) ->
  text_of json_Marshal (StdLogger_print l lv m (Evaluate [])) =
    plain_method_text json_Marshal l s lv m.
Proof.
  intros Hgate Hp. rewrite (print_passes _ _ _ _ _ Hp Hgate).
  unfold text_of, written, plain_method_text.
  cbn [flat_map on_printer arg_namespace arg_level arg_msg arg_options].
  rewrite app_nil_r. reflexivity.
Qed.

End PrinterProperties.

(** An instance: [Errorf("failed: %v", err)] on a logger with namespace
    "api". *)
Lemma formatted_matches_plain_example :
  let l := NewStdLogger None [Level level.Info; WithNamespace "api"] in
  let s := NewStdLogPrinter (Some stdLog.Stdout) stdLog.LstdFlags in
  fmt.Sprintf "failed: %v" [of_error boom] = Some "failed: boom" /\
  exists text,
    text_of no_json (call (formatted level.Error) l "failed: %v" [] [of_error boom]) =
      Some text /\
    plain_method_text no_json l s level.Error "failed: boom" = Some text.
Proof.
  intros l s.
  refine (formatted_matches_plain no_json l s level.Error "failed: %v" [of_error boom]
            "failed: boom" _ eq_refl eq_refl eq_refl eq_refl _).
  - simpl. lia.
  - intros H. discriminate H.
Defined.

Example formatted_text_example :
  text_of no_json
    (StdLogger_Errorf (NewStdLogger None [Level level.Info; WithNamespace "api"])
       "failed: %v" [of_error boom]) =
    Some ["[ERROR] > (api) failed: boom" +:+ fmt.nl].
Proof. reflexivity. Qed.

(** C2 does not hold of the formatted methods.  [Print] tells the
    formatted variant from the plain one by [len(fmtArgs) > 0] and, when
    there are arguments, splices the prefix and the final newline into the
    format string.  Against the bundled printer called directly with the
    interpolated message and empty options:
    - [Errorf("50%% done")], with no argument, is written verbatim: two
      percent signs where the interpolated message has one;
    - on a logger with namespace "%d", [Errorf("x=%d", 7)] spends its
      argument on the namespace;
    - [Errorf("done", 1)] puts the EXTRA marker after the newline that
      ends the record instead of before it. *)
Theorem Errorf_differs_from_interpolated :
  let s := NewStdLogPrinter (Some stdLog.Stdout) stdLog.LstdFlags in
  let l := NewStdLogger None [Level level.Info] in
  let l' := NewStdLogger None [Level level.Info; WithNamespace "%d"] in
  let direct namespace m :=
    stdLog.entries (stdLogPrinter_Print no_json s namespace level.Error m zero_Options) in
  (fmt.Sprintf "50%% done" [] = Some "50% done" /\
   text_of no_json (StdLogger_Errorf l "50%% done" []) =
     Some ["[ERROR] > 50%% done" +:+ fmt.nl] /\
   direct (namespace l) "50% done" = Some ["[ERROR] > 50% done" +:+ fmt.nl] /\
   text_of no_json (StdLogger_Errorf l "50%% done" []) <> direct (namespace l) "50% done") /\
  (fmt.Sprintf "x=%d" [of_int 7] = Some "x=7" /\
   text_of no_json (StdLogger_Errorf l' "x=%d" [of_int 7]) =
     Some ["[ERROR] > (7) x=%!d(MISSING)" +:+ fmt.nl] /\
   direct (namespace l') "x=7" = Some ["[ERROR] > (%d) x=7" +:+ fmt.nl] /\
   text_of no_json (StdLogger_Errorf l' "x=%d" [of_int 7]) <> direct (namespace l') "x=7") /\
  (fmt.Sprintf "done" [of_int 1] = Some "done%!(EXTRA int=1)" /\
   text_of no_json (StdLogger_Errorf l "done" [of_int 1]) =
     Some ["[ERROR] > done" +:+ fmt.nl +:+ "%!(EXTRA int=1)" +:+ fmt.nl] /\
   direct (namespace l) "done%!(EXTRA int=1)" =
     Some ["[ERROR] > done%!(EXTRA int=1)" +:+ fmt.nl] /\
   text_of no_json (StdLogger_Errorf l "done" [of_int 1]) <>
     direct (namespace l) "done%!(EXTRA int=1)").
Proof.
  intros s l l' direct. repeat split; try reflexivity;
    intros H; vm_compute in H; discriminate H.
Qed.

(** The spec's example for C7: the same stored error is written at level
    Error and left out at level Info. *)
Example error_line_example :
  let l := NewStdLogger None [Level level.Trace] in
  text_of no_json (StdLogger_Error l "failed" [logkOption.Error (Some boom)]) =
    Some ["[ERROR] > failed" +:+ fmt.nl; "  > Error: boom" +:+ fmt.nl] /\
  text_of no_json (StdLogger_Info l "failed" [logkOption.Error (Some boom)]) =
    Some ["[INFO]  > failed" +:+ fmt.nl].
Proof. split; reflexivity. Qed.

(** ** The global registry *)

Lemma os_LookupEnv_getenv key w :
  exists ok, os_LookupEnv key w = (Ok (getenv w key, ok), w).
Proof.
  unfold os_LookupEnv, getenv. destruct (environ w !! key); eexists; reflexivity.
Qed.

Lemma fallback_level lvs nss : level (fallback lvs nss) = level.Parse lvs.
Proof. reflexivity. Qed.

Lemma fallback_namespace lvs nss : namespace (fallback lvs nss) = nss.
Proof.
  unfold fallback. rewrite NewStdLogger_namespace. unfold override.
  change [Level (level.Parse lvs); WithNamespace nss]
    with ([Level (level.Parse lvs)] ++ [WithNamespace nss])%list.
  rewrite Evaluate_snoc, GetString_WithNamespace. reflexivity.
Qed.

Lemma fallback_call_returns lvs nss m msg setters fargs :
  exists calls, call m (fallback lvs nss) msg setters fargs = Ok calls.
Proof.
  destruct (call_is_print m (fallback lvs nss) msg setters fargs) as [o ->].
  unfold StdLogger_print. destruct (level.gt _ _); eexists; reflexivity.
Qed.

Lemma Get_registered (w : World) (l : Logger) :
  log w = Some l -> Get w = (Ok (Some l), w).
Proof. intros H. unfold Get, bind, read_log, ret. rewrite H. simpl. rewrite H. reflexivity. Qed.

Lemma Get_empty (w : World) :
  log w = None -> Get w = (Ok (log (initialised w)), initialised w).
Proof.
  intros H. unfold Get, bind, read_log. rewrite H.
  destruct (os_LookupEnv_getenv EnvLogLevel w) as [ok1 ->].
  destruct (os_LookupEnv_getenv EnvLogNamespace w) as [ok2 ->].
  cbn [fst new_StdLogger Register set_log add_logger log loggers environ events].
  unfold Logger_call, set_log, add_logger. cbn [log loggers environ events].
  rewrite (list_lookup_middle (loggers w) [] _ (length (loggers w)) eq_refl).
  unfold initialised, bootstrap_events, fallback_of, add_events.
  destruct (fallback_call_returns (getenv w EnvLogLevel) (getenv w EnvLogNamespace)
              Trace bootstrap_message [] []) as [calls ->].
  reflexivity.
Qed.

(** [Get] returns whatever the state of the registry. *)
Lemma Get_returns (w : World) : exists l w', Get w = (Ok (Some l), w') /\ log w' = Some l.
Proof.
  destruct (log w) as [l|] eqn:E.
  - exists l, w. split; [apply Get_registered, E | exact E].
  - eexists _, _. split; [apply Get_empty, E | reflexivity].
Qed.

(** Called twice in a row, [Get] returns the same logger and builds at
    most one. *)
Lemma Get_twice (w : World) :
  exists l w', Get w = (Ok (Some l), w') /\ Get w' = (Ok (Some l), w').
Proof.
  destruct (Get_returns w) as [l [w' [H1 H2]]].
  exists l, w'. split; [exact H1 | apply Get_registered, H2].
Qed.

(** C6: Register panics, with a message that names the fault, if and
    only if the logger is nil, and then the registry is left as it was;
    for every logger that is not nil it returns and the slot holds that
    logger. *)
Theorem Register_nil_panics (l : option Logger) (w : World) :
  ((exists v, fst (Register l w) = Panic v) <-> l = None) /\
  (l = None ->
   Register l w = (Panic (pkgName +:+ ": logger to be registered is nil"), w)) /\
  (forall x, l = Some x ->
     Register l w = (Ok tt, set_log (Some x) w) /\
     log (snd (Register l w)) = Some x /\
     loggers (snd (Register l w)) = loggers w /\
     events (snd (Register l w)) = events w).
Proof.
  split; [| split].
  - split.
    + intros [v Hv]. destruct l; [discriminate Hv | reflexivity].
    + intros ->. eexists. reflexivity.
  - intros ->. reflexivity.
  - intros x ->. repeat split.
Qed.

Example Register_nil_example (w : World) :
  Register None w = (Panic "logk: logger to be registered is nil", w).
Proof. reflexivity. Qed.

(** C5: for every logger l that is not nil, Get after Register(l)
    returns l and builds nothing; after Clear, the next Get returns a
    logger that was not there before, so not l, and that is a standard
    logger whose level is parsed from LOG_LEVEL and whose namespace is
    LOG_NAMESPACE. *)
Theorem Get_after_Register_and_Clear (l : Logger) (w : World) :
  allocated w l ->
  (_ <- Register (Some l) ;; Get) w = (Ok (Some l), set_log (Some l) w) /\
  exists (l' : Logger) (w' : World),
    (_ <- Register (Some l) ;; _ <- Clear ;; Get) w = (Ok (Some l'), w') /\
    l' <> l /\
    (forall old, allocated w old -> l' <> old) /\
    log w' = Some l' /\
    l' = StdLoggerPtr (length (loggers w)) /\
    loggers w' !! length (loggers w) =
      Some (fallback (getenv w EnvLogLevel) (getenv w EnvLogNamespace)) /\
    (forall sl, loggers w' !! length (loggers w) = Some sl ->
       level sl = level.Parse (getenv w EnvLogLevel) /\
       namespace sl = getenv w EnvLogNamespace /\
       printer sl = Some (StdLogPrinter
                            (NewStdLogPrinter (Some stdLog.Stdout) stdLog.LstdFlags))).
Proof.
  intros Hl.
  assert (Hfresh : forall old, allocated w old -> StdLoggerPtr (length (loggers w)) <> old).
  { intros [a|id] Ha E; [| discriminate E]. injection E as <-. simpl in Ha. lia. }
  split.
  - unfold bind at 1. cbn [Register]. apply Get_registered. reflexivity.
  - exists (StdLoggerPtr (length (loggers w))), (initialised (set_log None (set_log (Some l) w))).
    assert (Hmid : loggers (initialised (set_log None (set_log (Some l) w))) !!
                     length (loggers w) =
                   Some (fallback (getenv w EnvLogLevel) (getenv w EnvLogNamespace))).
    { cbn [initialised loggers set_log].
      apply (list_lookup_middle (loggers w) [] _ _ eq_refl). }
    split; [| split; [| split; [| split; [| split; [| split]]]]].
    + unfold bind at 1. cbn [Register]. unfold bind at 1. cbn [Clear].
      rewrite Get_empty by reflexivity. reflexivity.
    + apply Hfresh, Hl.
    + exact Hfresh.
    + reflexivity.
    + reflexivity.
    + exact Hmid.
    + intros sl Hsl. rewrite Hmid in Hsl. injection Hsl as <-.
      rewrite fallback_level, fallback_namespace. repeat split.
Qed.

(** An instance of C5: a registered standard logger is returned by Get,
    and after Clear the next Get returns another one, built from the
    environment. *)
Lemma Get_after_Register_and_Clear_witness :
  allocated custom_world (StdLoggerPtr 0) /\
  fst ((_ <- Register (Some (StdLoggerPtr 0)) ;; Get) custom_world) =
    Ok (Some (StdLoggerPtr 0)) /\
  exists l' w',
    (_ <- Register (Some (StdLoggerPtr 0)) ;; _ <- Clear ;; Get) custom_world =
      (Ok (Some l'), w') /\
    l' <> StdLoggerPtr 0 /\
    exists sl, loggers w' !! 1%nat = Some sl /\
               level sl = level.Debug /\ namespace sl = "svc".
Proof.
  assert (Ha : allocated custom_world (StdLoggerPtr 0)) by (simpl; lia).
  destruct (Get_after_Register_and_Clear (StdLoggerPtr 0) custom_world Ha)
    as [H1 [l' [w' [H2 [H3 [_ [_ [_ [H4 H5]]]]]]]]].
  split; [exact Ha |]. split; [rewrite H1; reflexivity |].
  exists l', w'. split; [exact H2 |]. split; [exact H3 |].
  eexists. split; [exact H4 |].
  destruct (H5 _ H4) as [Hlv [Hns _]]. split; [exact Hlv | exact Hns].
Defined.

(** ** Interleaved callers of Get *)

Lemma sched_step_alone p sh :
  sched_step 0 {| shared := sh; threads := [p] |} =
    match step 0 p sh with
    | Some (p', sh') => Some {| shared := sh'; threads := [p'] |}
    | None => None
    end.
Proof. unfold sched_step. simpl. destruct (step 0 p sh) as [[p' sh']|]; reflexivity. Qed.

Lemma run_cons tid rest c :
  run (tid :: rest) c =
    match sched_step tid c with
    | Some c' => run rest c'
    | None => None
    end.
Proof. reflexivity. Qed.

Ltac alone_step := rewrite run_cons, sched_step_alone; cbn [step world logMutex].

(** X19: a goroutine alone goes through the steps of Get as the
    sequential function does: it ends with the same result, in the same
    world, the lock free. *)
Lemma run_alone (w : World) :
  exists schedule r,
    fst (Get w) = Ok r /\
    run schedule (callers 1 w) =
      Some {| shared := {| world := snd (Get w); logMutex := None |};
              threads := [Done r] |}.
Proof.
  destruct (log w) as [l|] eqn:E.
  - exists [0; 0]%nat, (Some l). rewrite (Get_registered w l E). split; [reflexivity |].
    unfold callers. cbn [replicate].
    alone_step. rewrite E. alone_step. rewrite E. reflexivity.
  - exists [0; 0; 0; 0; 0; 0; 0]%nat, (log (initialised w)).
    rewrite (Get_empty w E). split; [reflexivity |].
    unfold callers. cbn [replicate].
    alone_step. rewrite E.
    alone_step. unfold bind.
    destruct (os_LookupEnv_getenv EnvLogLevel w) as [ok1 ->].
    destruct (os_LookupEnv_getenv EnvLogNamespace w) as [ok2 ->].
    cbn [fst new_StdLogger].
    do 4 alone_step.
    unfold Logger_call, set_log, add_logger. cbn [log loggers environ events].
    rewrite (list_lookup_middle (loggers w) [] _ (length (loggers w)) eq_refl).
    destruct (fallback_call_returns (getenv w EnvLogLevel) (getenv w EnvLogNamespace)
                Trace bootstrap_message [] []) as [calls Hc].
    rewrite Hc. alone_step.
    unfold initialised, bootstrap_events, fallback_of, add_events.
    rewrite Hc. reflexivity.
Qed.

(** C9 does not hold of [Get]: it reads the slot without the lock, so two
    goroutines that call Get on an empty registry can both find it empty.
    Under [racy_schedule] both finish, each with a logger of its own; two
    fallback loggers are built and two bootstrap messages are printed. *)
Theorem Get_race_builds_two_loggers :
  exists final,
    run racy_schedule (callers 2 empty_world) = Some final /\
    threads final = [Done (Some (StdLoggerPtr 0)); Done (Some (StdLoggerPtr 1))] /\
    length (loggers (world (shared final))) = 2%nat /\
    length (events (world (shared final))) = 2%nat /\
    log (world (shared final)) = Some (StdLoggerPtr 1) /\
    logMutex (shared final) = None.
Proof. eexists. split; [vm_compute; reflexivity | repeat split]. Qed.

(** * Further properties *)

(** ** Logging calls and child loggers *)

(** What a call of a logging method can do. *)
Lemma call_cases m l msg setters fargs :
  (level.ordinal (level l) < level.ordinal (method_level m))%Z /\
    call m l msg setters fargs = Ok [] \/
  (level.ordinal (method_level m) <= level.ordinal (level l))%Z /\
    ((printer l = None /\ call m l msg setters fargs = Panic nil_dereference) \/
     (exists p c, printer l = Some p /\ call m l msg setters fargs = Ok [c] /\
                  on_printer c = p)).
Proof.
  destruct (call_is_print m l msg setters fargs) as [o ->].
  destruct (Z_le_gt_dec (level.ordinal (method_level m)) (level.ordinal (level l)))
    as [Hle | Hgt].
  - right. split; [exact Hle |]. destruct (printer l) as [p|] eqn:Hp.
    + right. exists p. eexists. split; [reflexivity |].
      rewrite (print_passes _ _ _ _ _ Hp Hle). split; reflexivity.
    + left. split; [reflexivity |]. unfold StdLogger_print.
      apply gt_false in Hle. rewrite Hle, Hp. reflexivity.
  - left. assert (Hlt : (level.ordinal (level l) < level.ordinal (method_level m))%Z) by lia.
    split; [exact Hlt | apply print_stops, Hlt].
Qed.

(** X1: on a logger whose printer field is nil (the zero [StdLogger],
    which no constructor returns), a call of any of the twelve methods
    panics with the nil dereference exactly when the level of the method
    passes the gate, and returns without reaching any printer exactly when
    it does not: the gate is tested before the printer is touched. *)
Theorem nil_printer_calls (m : Method) (l : StdLogger) (msg : string)
    (setters : list SetterFunc) (fargs : list any) :
  printer l = None ->
  (call m l msg setters fargs = Panic nil_dereference <->
   (level.ordinal (method_level m) <= level.ordinal (level l))%Z) /\
  (call m l msg setters fargs = Ok [] <->
   (level.ordinal (level l) < level.ordinal (method_level m))%Z) /\
  (forall calls, call m l msg setters fargs = Ok calls -> calls = []).
Proof.
  intros Hn.
  destruct (call_cases m l msg setters fargs)
    as [[Hlt H] | [Hle [[_ H] | [p [c [Hp _]]]]]]; [| | congruence]; rewrite H.
  - split; [split; [discriminate | lia] |].
    split; [split; [intros _; exact Hlt | reflexivity] |].
    intros calls Hc. injection Hc as <-. reflexivity.
  - split; [split; [intros _; exact Hle | reflexivity] |].
    split; [split; [discriminate | lia] |].
    intros calls Hc. discriminate Hc.
Qed.

(** The zero logger has threshold Fatal: its Fatal methods panic, all
    the others return. *)
Lemma nil_printer_calls_witness :
  printer zero_StdLogger = None /\
  call Fatal zero_StdLogger "m" [] [] = Panic nil_dereference /\
  call Errorf zero_StdLogger "m" [] [] = Ok [].
Proof.
  assert (Hn : printer zero_StdLogger = None) by reflexivity.
  split; [exact Hn |]. split.
  - apply (proj1 (nil_printer_calls Fatal zero_StdLogger "m" [] [] Hn)).
    simpl. lia.
  - apply (proj1 (proj2 (nil_printer_calls Errorf zero_StdLogger "m" [] [] Hn))).
    simpl. lia.
Defined.

Lemma NewChild_printer_default l args :
  printer (StdLogger_NewChild l args) = Some (default_printer (printer l)).
Proof.
  unfold StdLogger_NewChild.
  destruct (GetString (Evaluate args) NamespaceKey) as [ns b].
  destruct (Context (Evaluate args)); simpl; destruct (printer l); reflexivity.
Qed.

Lemma descend_printer l p chain :
  printer l = Some p -> printer (descend l chain) = Some p.
Proof.
  intros Hp. induction chain as [|args chain IH] using rev_ind; [exact Hp |].
  rewrite descend_snoc, NewChild_printer_default, IH. reflexivity.
Qed.

(** X4: a child and all its descendants print on the parent's printer; a
    parent without printer gives them the bundled printer on standard
    output. *)
Theorem NewChild_shares_printer (l : StdLogger) (args : list SetterFunc)
    (chain : list (list SetterFunc)) :
  printer (StdLogger_NewChild l args) = Some (default_printer (printer l)) /\
  printer (descend (StdLogger_NewChild l args) chain) =
    Some (default_printer (printer l)) /\
  (forall p, printer l = Some p ->
     printer (descend (StdLogger_NewChild l args) chain) = Some p).
Proof.
  pose proof (NewChild_printer_default l args) as H.
  split; [exact H |]. split; [apply descend_printer, H |].
  intros p Hp. rewrite (descend_printer _ _ chain H), Hp. reflexivity.
Qed.

Lemma keeps_Context_Level lv : keeps_Context (Level lv).
Proof. intros o. reflexivity. Qed.

Lemma keeps_Context_WithNamespace s : keeps_Context (WithNamespace s).
Proof. intros o. reflexivity. Qed.

(** X5: the context of a child is the one its own setters carry: the
    parent's ambient context is not passed on, and a child derived without
    setters has none. *)
Theorem NewChild_context (l : StdLogger) (args : list SetterFunc) :
  ctx (StdLogger_NewChild l args) = Context (Evaluate args) /\
  ctx (StdLogger_NewChild l []) = None.
Proof.
  assert (H : ctx (StdLogger_NewChild l args) = Context (Evaluate args)).
  { unfold StdLogger_NewChild.
    destruct (GetString (Evaluate args) NamespaceKey) as [ns b].
    destruct (Context (Evaluate args)) as [c|] eqn:E; [reflexivity |].
    cbn [NewStdLogger ctx].
    destruct (String.eqb ns "" && negb (String.eqb (namespace l) ""));
      rewrite ?Evaluate_snoc, ?keeps_Context_Level, ?keeps_Context_WithNamespace, E;
      reflexivity. }
  split; [exact H |]. clear H. unfold StdLogger_NewChild. cbn [Evaluate fold_left].
  destruct (GetString zero_Options NamespaceKey) as [ns b]. cbn [Context zero_Options].
  cbn [NewStdLogger ctx].
  destruct (String.eqb ns "" && negb (String.eqb (namespace l) ""));
    rewrite ?Evaluate_snoc, ?keeps_Context_Level, ?keeps_Context_WithNamespace;
    reflexivity.
Qed.

(** X2: when a call reaches the printer, so does every call of a method
    at least as severe on the same logger, and so does the same call on
    every logger with the same printer and a threshold at least as
    verbose. *)
Theorem gate_monotone (m : Method) (l : StdLogger) (msg : string)
    (setters : list SetterFunc) (fargs : list any) (c : PrintCall) :
  call m l msg setters fargs = Ok [c] ->
  (forall m' msg' setters' fargs',
     (level.ordinal (method_level m') <= level.ordinal (method_level m))%Z ->
     exists c', call m' l msg' setters' fargs' = Ok [c']) /\
  (forall l',
     printer l' = printer l ->
     (level.ordinal (level l) <= level.ordinal (level l'))%Z ->
     exists c', call m l' msg setters fargs = Ok [c']).
Proof.
  intros H.
  destruct (call_cases m l msg setters fargs)
    as [[_ H0] | [Hle [[_ H0] | [p [c0 [Hp _]]]]]];
    try (rewrite H0 in H; discriminate H).
  split.
  - intros m' msg' setters' fargs' Hm.
    destruct (call_cases m' l msg' setters' fargs')
      as [[Hlt _] | [_ [[Hn _] | [p' [c' [_ [H' _]]]]]]];
      [lia | congruence | eauto].
  - intros l' Hp' Hl.
    destruct (call_cases m l' msg setters fargs)
      as [[Hlt _] | [_ [[Hn _] | [p' [c' [_ [H' _]]]]]]];
      [lia | congruence | eauto].
Qed.

Lemma gate_monotone_witness :
  exists c,
    call Info api_logger "m" [] [] = Ok [c] /\
    exists c', call Error api_logger "e" [] [] = Ok [c'].
Proof.
  eexists. split; [reflexivity |].
  refine (proj1 (gate_monotone Info api_logger "m" [] [] _ eq_refl) Error "e" [] [] _).
  simpl. lia.
Defined.

(** ** What the bundled printer writes *)

Lemma inject_ctx_chosen l o : Context (inject_ctx l o) = chosen_Context l o.
Proof.
  unfold inject_ctx, chosen_Context.
  destruct (ctx l); destruct (Context o) eqn:E; cbn; rewrite ?E; reflexivity.
Qed.

Lemma entries_app_Some cs1 cs2 es1 es2 :
  stdLog.entries cs1 = Some es1 -> stdLog.entries cs2 = Some es2 ->
  stdLog.entries (cs1 ++ cs2) = Some (es1 ++ es2)%list.
Proof.
  revert es1. induction cs1 as [|c cs1 IH]; intros es1 H1 H2.
  - injection H1 as <-. exact H2.
  - cbn [stdLog.entries] in H1. cbn [app stdLog.entries].
    destruct (stdLog.Printf c) as [e|]; [| discriminate H1]. cbn [mbind option_bind] in *.
    destruct (stdLog.entries cs1) as [es|]; [| discriminate H1].
    cbn [mbind option_bind] in H1. injection H1 as <-.
    rewrite (IH _ eq_refl H2). reflexivity.
Qed.

Lemma entries_length cs es : stdLog.entries cs = Some es -> length es = length cs.
Proof.
  revert es. induction cs as [|c cs IH]; intros es H.
  - injection H as <-. reflexivity.
  - cbn [stdLog.entries] in H.
    destruct (stdLog.Printf c) as [e|]; [| discriminate H]. cbn [mbind option_bind] in H.
    destruct (stdLog.entries cs) as [es'|]; [| discriminate H].
    cbn [mbind option_bind] in H. injection H as <-. simpl. rewrite (IH _ eq_refl).
    reflexivity.
Qed.

Lemma request_lines_length c : (length (request_lines c) <= 1)%nat.
Proof.
  unfold request_lines. destruct (negb _); simpl; lia.
Qed.

Lemma error_lines_length lv o : (length (error_lines lv o) <= 1)%nat.
Proof.
  unfold error_lines. destruct (GetError o ErrorKey); [destruct (level.le _ _) |];
    simpl; lia.
Qed.

Section MorePrinter.

Variable json_Marshal : gmap string any -> option string.

Lemma metadata_lines_length meta : (length (metadata_lines json_Marshal meta) <= 1)%nat.
Proof.
  unfold metadata_lines. destruct (0 <? size meta)%nat; [destruct (json_Marshal meta) |];
    simpl; lia.
Qed.

Lemma entries_metadata meta : exists es, stdLog.entries (metadata_lines json_Marshal meta) = Some es.
Proof.
  unfold metadata_lines. destruct (0 <? size meta)%nat; [| eexists; reflexivity].
  destruct (json_Marshal meta) as [b|]; [| eexists; reflexivity].
  eexists. apply entries_cons; [apply Printf_metadata | reflexivity].
Qed.

(** X8: without format arguments the printer always renders: the first
    entry is the level tag, the namespace in parentheses when there is
    one, and the message verbatim, percent signs included, ended by a
    newline; at most three entries follow. *)
Theorem plain_record_text (s : stdLogPrinter) (namespace : string) (lv : level.LogLevel)
    (msg : string) (o : Options) :
  FmtArgs o = [] ->
  exists rest,
    stdLog.entries (stdLogPrinter_Print json_Marshal s namespace lv msg o) =
      Some ((record_prefix lv namespace +:+ msg +:+ fmt.nl) :: rest) /\
    (length rest <= 3)%nat.
Proof.
  intros Hf. rewrite (Print_groups json_Marshal).
  destruct (entries_request (Context o)) as [e1 H1].
  destruct (error_lines_text lv o) as [e2 [H2 _]].
  destruct (entries_metadata (Metadata o)) as [e3 H3].
  exists (e1 ++ e2 ++ e3)%list. split.
  - apply entries_cons.
    + unfold first_line. rewrite Hf. apply Printf_literal.
    + apply entries_app_Some; [exact H1 |]. apply entries_app_Some; assumption.
  - rewrite !length_app, (entries_length _ _ H1), (entries_length _ _ H2),
      (entries_length _ _ H3).
    pose proof (request_lines_length (Context o)).
    pose proof (error_lines_length lv o).
    pose proof (metadata_lines_length (Metadata o)). lia.
Qed.

(** X9: when the encoding of the metadata fails, the printer writes what
    it writes for the same record without metadata: the failure is skipped
    and nothing of it shows. *)
Theorem metadata_failure_skipped (s : stdLogPrinter) (namespace : string)
    (lv : level.LogLevel) (msg : string) (o : Options) :
  json_Marshal (Metadata o) = None ->
  stdLogPrinter_Print json_Marshal s namespace lv msg o =
    stdLogPrinter_Print json_Marshal s namespace lv msg (set_Metadata ∅ o).
Proof.
  intros H. rewrite !(Print_groups json_Marshal). unfold metadata_lines.
  cbn [set_Metadata Metadata FmtArgs Context]. rewrite H, map_size_empty.
  destruct (0 <? size (Metadata o))%nat; reflexivity.
Qed.

(** X6: on a logger with the bundled printer, a record that passes the
    gate is written with the context of the options when they carry one
    and with the logger's otherwise: the message line, then the request
    line of that context, the error line and the metadata line. *)
Theorem log_call_lines (l : StdLogger) (s : stdLogPrinter) (lv : level.LogLevel)
    (msg : string) (o : Options) :
  printer l = Some (StdLogPrinter s) ->
  (level.ordinal lv <= level.ordinal (level l))%Z ->
  exists c,
    StdLogger_print l lv msg o = Ok [c] /\
    Context (arg_options c) = chosen_Context l o /\
    written json_Marshal [c] =
      (first_line lv (namespace l) msg (FmtArgs o) ::
       request_lines (chosen_Context l o) ++ error_lines lv o ++
       metadata_lines json_Marshal (Metadata o))%list.
Proof.
  intros Hp Hgate. eexists. split; [apply (print_passes _ _ _ _ _ Hp Hgate) |].
  cbn [arg_options]. split; [apply inject_ctx_chosen |].
  unfold written. cbn [flat_map on_printer arg_namespace arg_level arg_msg arg_options].
  rewrite app_nil_r, (Print_groups json_Marshal).
  destruct (inject_ctx_fields l o) as [Hv [Hm Hf]].
  unfold error_lines, GetError. rewrite Hv, Hm, Hf, inject_ctx_chosen. reflexivity.
Qed.

(** X7: a formatted method that passes the gate writes the message line
    and the request line of the logger's context, and never an error line
    nor a metadata line. *)
Theorem formatted_call_lines (l : StdLogger) (s : stdLogPrinter) (lv : level.LogLevel)
    (format : string) (args : list any) :
  printer l = Some (StdLogPrinter s) ->
  (level.ordinal lv <= level.ordinal (level l))%Z ->
  exists calls,
    call (formatted lv) l format [] args = Ok calls /\
    written json_Marshal calls =
      (first_line lv (namespace l) format args :: request_lines (ctx l))%list /\
    existsb is_error_line (written json_Marshal calls) = false.
Proof.
  intros Hp Hgate. rewrite formatted_call, (print_passes _ _ _ _ _ Hp Hgate).
  eexists. split; [reflexivity |].
  assert (H : written json_Marshal
                [ {| on_printer := StdLogPrinter s; arg_namespace := namespace l;
                     arg_level := lv; arg_msg := format;
                     arg_options := inject_ctx l (NewFormatOptions args) |} ] =
              (first_line lv (namespace l) format args :: request_lines (ctx l))%list).
  { unfold written.
    cbn [flat_map on_printer arg_namespace arg_level arg_msg arg_options].
    rewrite app_nil_r, (Print_format_options json_Marshal).
    f_equal. f_equal. unfold inject_ctx. destruct (ctx l); reflexivity. }
  split; [exact H |]. rewrite H. cbn [existsb].
  rewrite first_line_not_error, request_lines_not_error. reflexivity.
Qed.

End MorePrinter.

Lemma plain_record_text_witness :
  FmtArgs zero_Options = [] /\
  exists rest,
    stdLog.entries (stdLogPrinter_Print no_json stdout_printer "api" level.Info
                      "100% done" zero_Options) =
      Some ((record_prefix level.Info "api" +:+ "100% done" +:+ fmt.nl) :: rest) /\
    (length rest <= 3)%nat.
Proof.
  split; [reflexivity |].
  exact (plain_record_text no_json stdout_printer "api" level.Info "100% done"
           zero_Options eq_refl).
Defined.

Lemma metadata_failure_skipped_witness :
  no_json (Metadata meta_options) = None /\
  stdLogPrinter_Print no_json stdout_printer "" level.Info "m" meta_options =
    stdLogPrinter_Print no_json stdout_printer "" level.Info "m"
      (set_Metadata ∅ meta_options).
Proof.
  split; [reflexivity |].
  exact (metadata_failure_skipped no_json stdout_printer "" level.Info "m" meta_options
           eq_refl).
Defined.

Lemma log_call_lines_witness :
  printer api_logger = Some (StdLogPrinter stdout_printer) /\
  (level.ordinal level.Warn <= level.ordinal (level api_logger))%Z /\
  exists c,
    StdLogger_print api_logger level.Warn "m" zero_Options = Ok [c] /\
    Context (arg_options c) = Some request_ctx.
Proof.
  assert (Hp : printer api_logger = Some (StdLogPrinter stdout_printer)) by reflexivity.
  assert (Hg : (level.ordinal level.Warn <= level.ordinal (level api_logger))%Z)
    by (simpl; lia).
  split; [exact Hp |]. split; [exact Hg |].
  destruct (log_call_lines no_json api_logger stdout_printer level.Warn "m" zero_Options
              Hp Hg) as [c [H1 [H2 _]]].
  exists c. split; [exact H1 | exact H2].
Defined.

Lemma formatted_call_lines_witness :
  printer api_logger = Some (StdLogPrinter stdout_printer) /\
  (level.ordinal level.Error <= level.ordinal (level api_logger))%Z /\
  exists calls,
    call (formatted level.Error) api_logger "failed: %v" [] [of_error boom] = Ok calls /\
    existsb is_error_line (written no_json calls) = false.
Proof.
  assert (Hp : printer api_logger = Some (StdLogPrinter stdout_printer)) by reflexivity.
  assert (Hg : (level.ordinal level.Error <= level.ordinal (level api_logger))%Z)
    by (simpl; lia).
  split; [exact Hp |]. split; [exact Hg |].
  destruct (formatted_call_lines no_json api_logger stdout_printer level.Error
              "failed: %v" [of_error boom] Hp Hg) as [calls [H1 [_ H3]]].
  exists calls. split; [exact H1 | exact H3].
Defined.

Lemma error_text_condition_witness :
  let es := ["[ERROR] > failed" +:+ fmt.nl; "  > Error: boom" +:+ fmt.nl] in
  stdLog.entries (stdLogPrinter_Print no_json stdout_printer "" level.Error "failed"
                    error_options) = Some es /\
  (existsb is_error_text es = true <->
   (exists e, index (Values error_options) ErrorKey = of_error e) /\
   (level.ordinal level.Error <= level.ordinal level.Error)%Z).
Proof.
  intros es.
  assert (H : stdLog.entries (stdLogPrinter_Print no_json stdout_printer "" level.Error
                                "failed" error_options) = Some es) by reflexivity.
  split; [exact H |].
  exact (error_text_condition no_json stdout_printer "" level.Error "failed"
           error_options es H).
Defined.


(** ** Getters and the registry *)

(** An instance of X13: no key is stored in the zero options. *)
Lemma typed_getters_missing_witness :
  Values zero_Options !! "absent" = None /\
  GetString zero_Options "absent" = ("", false) /\
  GetError zero_Options "absent" = None /\
  GetInt64 zero_Options "absent" = (0%Z, false) /\
  GetTime zero_Options "absent" = (zero_Time, false).
Proof.
  assert (H : Values zero_Options !! "absent" = None) by reflexivity.
  split; [exact H | exact (typed_getters_missing zero_Options "absent" H)].
Defined.

(** X14: Get always returns a logger that is not nil and leaves it
    registered; a second Get returns the same logger and changes nothing;
    Get allocates at most one logger, keeps the environment, and changes
    nothing at all when a logger was registered. *)
Theorem Get_idempotent (w : World) :
  exists l w',
    Get w = (Ok (Some l), w') /\
    Get w' = (Ok (Some l), w') /\
    log w' = Some l /\
    environ w' = environ w /\
    (length (loggers w) <= length (loggers w') <= S (length (loggers w)))%nat /\
    (forall l0, log w = Some l0 -> l = l0 /\ w' = w).
Proof.
  destruct (log w) as [l|] eqn:E.
  - exists l, w. rewrite (Get_registered w l E).
    repeat split; try lia; try assumption; congruence.
  - eexists _, _. split; [apply Get_empty, E |].
    split; [apply Get_registered; reflexivity |].
    cbn [initialised log environ loggers]. rewrite length_app. simpl.
    repeat split; try lia; discriminate.
Qed.

(** The bootstrap message passes the gate of the fallback logger exactly
    when its threshold is Trace. *)
Lemma bootstrap_events_cases (w : World) :
  (level.Parse (getenv w EnvLogLevel) = level.Trace /\
   bootstrap_events w = [Printed (bootstrap_call w)]) \/
  (level.Parse (getenv w EnvLogLevel) <> level.Trace /\ bootstrap_events w = []).
Proof.
  unfold bootstrap_events, fallback_of. cbn [call]. unfold StdLogger_Trace.
  pose proof (fallback_level (getenv w EnvLogLevel) (getenv w EnvLogNamespace)) as Hl.
  pose proof (fallback_namespace (getenv w EnvLogLevel) (getenv w EnvLogNamespace)) as Hn.
  destruct (level.Parse (getenv w EnvLogLevel)) eqn:E;
    [right | right | right | right | right | left]; (split; [congruence |]);
    try (rewrite print_stops; [reflexivity | rewrite Hl; simpl; lia]).
  rewrite (print_passes _ (StdLogPrinter (NewStdLogPrinter (Some stdLog.Stdout)
                                            stdLog.LstdFlags)));
    [| reflexivity | rewrite Hl; reflexivity].
  cbn [map]. unfold bootstrap_call. rewrite Hn. reflexivity.
Qed.

(** X15: on an empty registry Get prints its bootstrap message, through
    the logger it has just registered, exactly when LOG_LEVEL parses to
    Trace; at any other level Get prints nothing. *)
Theorem Get_bootstrap_message (w : World) :
  log w = None ->
  (level.Parse (getenv w EnvLogLevel) = level.Trace ->
   events (snd (Get w)) = (events w ++ [Printed (bootstrap_call w)])%list) /\
  (level.Parse (getenv w EnvLogLevel) <> level.Trace ->
   events (snd (Get w)) = events w).
Proof.
  intros E. rewrite (Get_empty w E). cbn [snd initialised events].
  destruct (bootstrap_events_cases w) as [[Ht ->] | [Hn ->]]; split; intros H;
    try reflexivity; try contradiction. apply app_nil_r.
Qed.

Lemma Get_bootstrap_message_witness :
  log empty_world = None /\
  events (snd (Get empty_world)) = [Printed (bootstrap_call empty_world)].
Proof.
  split; [reflexivity |].
  exact (proj1 (Get_bootstrap_message empty_world eq_refl) eq_refl).
Defined.

(** X16: the registry keeps the last write only: Register after Register
    or Clear leaves what the second call alone leaves, and so does Clear
    after Register or Clear; after the panic of Register(nil) nothing
    further runs and the registry is as before. *)
Theorem registry_last_writer_wins (a b : Logger) (w : World) :
  (_ <- Register (Some a) ;; Register (Some b)) w = Register (Some b) w /\
  (_ <- Register (Some a) ;; Clear) w = Clear w /\
  (_ <- Clear ;; Register (Some a)) w = Register (Some a) w /\
  (_ <- Clear ;; Clear) w = Clear w /\
  (_ <- Register None ;; Register (Some a)) w = Register None w.
Proof. repeat split. Qed.

(** The namespace of a child, in one equation. *)
Lemma NewChild_namespace_or (l : StdLogger) (args : list SetterFunc) :
  namespace (StdLogger_NewChild l args) =
    if String.eqb (override args) "" then namespace l else override args.
Proof.
  destruct (String.eqb (override args) "") eqn:E.
  - apply NewChild_inherits, eqb_empty, E.
  - apply NewChild_overrides. intros H. apply eqb_empty in H. congruence.
Qed.

(** X17: the package-level NewChild on an empty registry first installs
    the fallback logger as Get does, then derives the child from it: the
    child is a second new object, it is not registered, its threshold is
    the one parsed from LOG_LEVEL and its namespace is the override of the
    setters, or LOG_NAMESPACE when they carry none. *)
Theorem NewChild_on_empty_registry (args : list SetterFunc) (w : World) :
  log w = None ->
  exists child w',
    NewChild args w = (Ok (StdChild (StdLoggerPtr (S (length (loggers w))))), w') /\
    log w' = Some (StdLoggerPtr (length (loggers w))) /\
    loggers w' = (loggers w ++ [fallback_of w; child])%list /\
    events w' = (events w ++ bootstrap_events w)%list /\
    level child = level.Parse (getenv w EnvLogLevel) /\
    namespace child =
      (if String.eqb (override args) "" then getenv w EnvLogNamespace else override args).
Proof.
  intros E. exists (StdLogger_NewChild (fallback_of w) args). eexists.
  unfold NewChild, bind. rewrite (Get_empty w E).
  unfold Logger_NewChild. cbn [initialised log loggers].
  rewrite (list_lookup_middle (loggers w) [] _ (length (loggers w)) eq_refl).
  unfold new_StdLogger, add_logger, initialised. cbn [log loggers environ events].
  rewrite length_app. cbn [length]. rewrite Nat.add_1_r, <- app_assoc.
  repeat split.
  - rewrite NewChild_level. apply fallback_level.
  - rewrite NewChild_namespace_or. unfold fallback_of. rewrite fallback_namespace.
    reflexivity.
Qed.

Lemma NewChild_on_empty_registry_witness :
  log empty_world = None /\
  exists child w',
    NewChild [WithNamespace "db"] empty_world = (Ok (StdChild (StdLoggerPtr 1)), w') /\
    log w' = Some (StdLoggerPtr 0) /\
    level child = level.Trace /\
    namespace child = "db".
Proof.
  split; [reflexivity |].
  destruct (NewChild_on_empty_registry [WithNamespace "db"] empty_world eq_refl)
    as [child [w' [H1 [H2 [_ [_ [H5 H6]]]]]]].
  exists child, w'. split; [exact H1 |]. split; [exact H2 |].
  split; [exact H5 | exact H6].
Defined.

(** X18: the package-level NewChild on a registered standard logger
    allocates the child and nothing else: the registered logger stays
    registered, the child is another object, and nothing is printed. *)
Theorem NewChild_leaves_registry (args : list SetterFunc) (w : World) (a : nat)
    (l : StdLogger) :
  log w = Some (StdLoggerPtr a) ->
  loggers w !! a = Some l ->
  NewChild args w =
    (Ok (StdChild (StdLoggerPtr (length (loggers w)))),
     add_logger (StdLogger_NewChild l args) w) /\
  log (snd (NewChild args w)) = Some (StdLoggerPtr a) /\
  events (snd (NewChild args w)) = events w /\
  StdLoggerPtr (length (loggers w)) <> StdLoggerPtr a.
Proof.
  intros E Hl.
  assert (H : NewChild args w =
                (Ok (StdChild (StdLoggerPtr (length (loggers w)))),
                 add_logger (StdLogger_NewChild l args) w)).
  { unfold NewChild, bind. rewrite (Get_registered w _ E).
    unfold Logger_NewChild. rewrite Hl. reflexivity. }
  rewrite H. repeat split; [exact E |].
  intros Heq. injection Heq as Heq. apply lookup_lt_Some in Hl. lia.
Qed.

Lemma NewChild_leaves_registry_witness :
  log registered_world = Some (StdLoggerPtr 0) /\
  loggers registered_world !! 0%nat = Some api_logger /\
  log (snd (NewChild [WithNamespace "db"] registered_world)) = Some (StdLoggerPtr 0) /\
  events (snd (NewChild [WithNamespace "db"] registered_world)) = [].
Proof.
  split; [reflexivity |]. split; [reflexivity |].
  destruct (NewChild_leaves_registry [WithNamespace "db"] registered_world 0 api_logger
              eq_refl eq_refl) as [_ [H2 [H3 _]]].
  split; [exact H2 | exact H3].
Defined.

(** On a registered custom logger the package-level NewChild hands the
    call over and touches nothing. *)
Lemma NewChild_custom (args : list SetterFunc) (w : World) (id : nat) :
  log w = Some (CustomLogger id) ->
  NewChild args w = (Ok (CustomChild id args), w).
Proof.
  intros E. unfold NewChild, bind. rewrite (Get_registered w _ E). reflexivity.
Qed.

(** ** Invariants of the interleaved callers *)










Lemma init_step w :
  (lv <- os_LookupEnv EnvLogLevel ;;
   ns <- os_LookupEnv EnvLogNamespace ;;
   new_StdLogger (fallback (fst lv) (fst ns))) w =
  (Ok (StdLoggerPtr (length (loggers w))), add_logger (fallback_of w) w).
Proof.
  unfold bind.
  destruct (os_LookupEnv_getenv EnvLogLevel w) as [ok1 ->].
  destruct (os_LookupEnv_getenv EnvLogNamespace w) as [ok2 ->].
  reflexivity.
Qed.







Lemma in_critical_cons p ts : in_critical (p :: ts) = (b2n (critical p) + in_critical ts)%nat.
Proof.
  unfold in_critical. rewrite filter_cons. destruct (critical p) eqn:E.
  - rewrite decide_True by reflexivity. reflexivity.
  - rewrite decide_False by discriminate. reflexivity.
Qed.

Lemma in_critical_insert ts tid p p' :
  ts !! tid = Some p ->
  (in_critical (<[tid := p']> ts) + b2n (critical p) =
   in_critical ts + b2n (critical p'))%nat.
Proof.
  revert tid. induction ts as [|q ts IH]; intros tid H; [discriminate H |].
  destruct tid as [|tid].
  - injection H as ->. change (<[0%nat := p']> (p :: ts)) with (p' :: ts).
    rewrite !in_critical_cons. lia.
  - change (<[S tid := p']> (q :: ts)) with (q :: <[tid := p']> ts).
    rewrite !in_critical_cons. specialize (IH tid H). lia.
Qed.

(** Every step keeps the lock and the goroutines inside in step. *)
Lemma sched_step_exclusive tid c c' :
  exclusive c -> sched_step tid c = Some c' -> exclusive c'.
Proof.
  unfold exclusive, sched_step. intros Hc.
  destruct (threads c !! tid) as [p|] eqn:Hp; [| discriminate].
  cbn [mbind option_bind].
  destruct (step tid p (shared c)) as [[p' sh']|] eqn:Hs; [| discriminate].
  intros H. injection H as <-. cbn [threads shared].
  pose proof (in_critical_insert _ _ _ p' Hp) as Hi.
  destruct c as [[w m] ts]. cbn [shared world threads logMutex] in *.
  destruct p; cbn [step world logMutex] in Hs.
  - destruct (log w); injection Hs as <- <-; simpl in *; lia.
  - rewrite (init_step w) in Hs.
    injection Hs as <- <-; simpl in *; lia.
  - destruct m; [discriminate Hs |]. injection Hs as <- <-. simpl in *. lia.
  - injection Hs as <- <-. simpl in *. lia.
  - injection Hs as <- <-. simpl in *.
    assert (1 <= in_critical ts)%nat.
    { clear -Hp. revert tid Hp. induction ts as [|q ts IH]; intros tid Hp; [discriminate |].
      rewrite in_critical_cons. destruct tid as [|tid].
      - injection Hp as ->. simpl. lia.
      - specialize (IH tid Hp). lia. }
    destruct m; simpl in *; lia.
  - destruct (Logger_call (log w) Trace bootstrap_message [] [] w) as [[u|v] w'];
      injection Hs as <- <-; simpl in *; lia.
  - injection Hs as <- <-. simpl in *. lia.
  - discriminate Hs.
  - discriminate Hs.
Qed.

Lemma in_critical_replicate n : in_critical (replicate n AtCheck) = 0%nat.
Proof. induction n as [|n IH]; [reflexivity |]. cbn [replicate]. rewrite in_critical_cons, IH. reflexivity. Qed.

(** X21: however the goroutines that call Get interleave, at most one of
    them is between the Lock and the deferred Unlock of Register, and the
    lock is held exactly when one is. *)
Theorem interleaved_lock_exclusive (n : nat) (w : World) (schedule : list nat)
    (c : Config) :
  run schedule (callers n w) = Some c ->
  in_critical (threads c) = lock_count (logMutex (shared c)) /\
  (in_critical (threads c) <= 1)%nat.
Proof.
  intros Hrun.
  assert (H : exclusive c).
  { revert Hrun. generalize (in_critical_replicate n).
    change (in_critical (replicate n AtCheck) = 0%nat) with (exclusive (callers n w)).
    generalize (callers n w). induction schedule as [|tid rest IH]; intros c0 H0 Hrun.
    - injection Hrun as <-. exact H0.
    - rewrite run_cons in Hrun.
      destruct (sched_step tid c0) as [c1|] eqn:E; [| discriminate Hrun].
      apply (IH c1); [apply (sched_step_exclusive tid c0); assumption | exact Hrun]. }
  split; [exact H |]. unfold exclusive in H. rewrite H.
  destruct (logMutex (shared c)); simpl; lia.
Qed.

Lemma interleaved_lock_exclusive_witness :
  exists c,
    run [0; 1; 0; 0; 1]%nat (callers 2 empty_world) = Some c /\
    in_critical (threads c) = 1%nat /\
    logMutex (shared c) = Some 0%nat.
Proof.
  assert (H : exists c, run [0; 1; 0; 0; 1]%nat (callers 2 empty_world) = Some c /\
                        logMutex (shared c) = Some 0%nat)
    by (eexists; split; vm_compute; reflexivity).
  destruct H as [c [Hc Hm]]. exists c. split; [exact Hc |]. split; [| exact Hm].
  destruct (interleaved_lock_exclusive 2 empty_world _ c Hc) as [H _].
  rewrite H, Hm. reflexivity.
Defined.

(** ** The other detail lines, and callers on a set registry *)

Section DetailLines.

Variable json_Marshal : gmap string any -> option string.

Lemma first_line_not_detail lv namespace msg fmtArgs :
  is_request_line (first_line lv namespace msg fmtArgs) = false /\
  is_metadata_line (first_line lv namespace msg fmtArgs) = false.
Proof.
  unfold first_line. destruct (0 <? length fmtArgs)%nat; [| split; reflexivity].
  destruct (record_prefix_bracket lv namespace) as [rest E].
  unfold is_request_line, is_metadata_line. cbn [stdLog.format]. rewrite E.
  split; reflexivity.
Qed.

Lemma request_lines_spec c :
  existsb is_request_line (request_lines c) =
    negb (String.eqb (logkContext.GetRequestId c) "") /\
  existsb is_metadata_line (request_lines c) = false.
Proof.
  unfold request_lines.
  destruct (negb (String.eqb (logkContext.GetRequestId c) "")); split; reflexivity.
Qed.

Lemma error_lines_not_detail lv o :
  existsb is_request_line (error_lines lv o) = false /\
  existsb is_metadata_line (error_lines lv o) = false.
Proof.
  unfold error_lines. destruct (GetError o ErrorKey); [destruct (level.le lv level.Error) |];
    split; reflexivity.
Qed.

Lemma metadata_lines_spec meta :
  existsb is_request_line (metadata_lines json_Marshal meta) = false /\
  (existsb is_metadata_line (metadata_lines json_Marshal meta) = true <->
   (0 < size meta)%nat /\ exists b, json_Marshal meta = Some b).
Proof.
  unfold metadata_lines. destruct (0 <? size meta)%nat eqn:E.
  - apply Nat.ltb_lt in E. destruct (json_Marshal meta) as [b|]; split; try reflexivity.
    + split; [intros _; split; [exact E | exists b; reflexivity] | intros _; reflexivity].
    + split; [discriminate | intros [_ [b Hb]]; discriminate Hb].
  - apply Nat.ltb_ge in E. split; [reflexivity |].
    split; [discriminate | intros [H _]; lia].
Qed.

(** X22: the request line is among the lines of a record if and only if
    the context of the options carries a request identifier that is not
    empty; the metadata line is among them if and only if the metadata is
    not empty and its encoding succeeds. *)
Theorem detail_line_conditions (s : stdLogPrinter) (namespace : string)
    (lv : level.LogLevel) (msg : string) (o : Options) :
  (existsb is_request_line (stdLogPrinter_Print json_Marshal s namespace lv msg o) = true <->
   logkContext.GetRequestId (Context o) <> "") /\
  (existsb is_metadata_line (stdLogPrinter_Print json_Marshal s namespace lv msg o) = true <->
   (0 < size (Metadata o))%nat /\ exists b, json_Marshal (Metadata o) = Some b).
Proof.
  rewrite (Print_groups json_Marshal). cbn [existsb].
  destruct (first_line_not_detail lv namespace msg (FmtArgs o)) as [-> ->].
  rewrite !existsb_app.
  destruct (request_lines_spec (Context o)) as [-> ->].
  destruct (error_lines_not_detail lv o) as [-> ->].
  destruct (metadata_lines_spec (Metadata o)) as [-> Hm].
  cbn [orb]. rewrite orb_false_r. split; [| exact Hm].
  rewrite negb_true_iff. split.
  - intros H E. apply String.eqb_eq in E. congruence.
  - intros H. destruct (String.eqb _ "") eqn:E; [| reflexivity].
    apply String.eqb_eq in E. contradiction.
Qed.

End DetailLines.

(** Every step keeps the invariant. *)
Lemma sched_step_settled w l tid c c' :
  log w = Some l -> settled w l c -> sched_step tid c = Some c' -> settled w l c'.
Proof.
  intros Hl [Hsh Hts]. unfold sched_step.
  destruct (threads c !! tid) as [p|] eqn:Hp; [| discriminate].
  cbn [mbind option_bind].
  assert (Hok : waiting_or_done l p).
  { rewrite Forall_lookup in Hts. exact (Hts _ _ Hp). }
  rewrite Hsh.
  destruct Hok as [-> | [-> | ->]]; cbn [step world]; rewrite ?Hl;
    try discriminate; intros H; injection H as <-; (split; [reflexivity |]);
    cbn [threads]; (apply Forall_insert; [exact Hts |]); unfold waiting_or_done; auto.
Qed.

(** X23: when a logger is registered, however the goroutines that call
    Get interleave, every finished call has returned that logger, and
    nothing was allocated, printed, registered or locked on the way. *)
Theorem interleaved_Get_registered (n : nat) (w : World) (l : Logger)
    (schedule : list nat) (c : Config) :
  log w = Some l ->
  run schedule (callers n w) = Some c ->
  shared c = {| world := w; logMutex := None |} /\
  Forall (fun p => p = AtCheck \/ p = AtReturn \/ p = Done (Some l)) (threads c).
Proof.
  intros Hl Hrun.
  assert (H0 : settled w l (callers n w)).
  { split; [reflexivity |]. cbn [callers threads]. apply Forall_replicate. left. reflexivity. }
  revert Hrun H0. generalize (callers n w).
  induction schedule as [|tid rest IH]; intros c0 Hrun H0.
  - injection Hrun as <-. exact H0.
  - rewrite run_cons in Hrun.
    destruct (sched_step tid c0) as [c1|] eqn:E; [| discriminate Hrun].
    apply (IH c1); [exact Hrun | apply (sched_step_settled w l tid c0); assumption].
Qed.

Lemma interleaved_Get_registered_witness :
  log registered_world = Some (StdLoggerPtr 0) /\
  exists c,
    run [0; 1; 0; 1]%nat (callers 2 registered_world) = Some c /\
    threads c = [Done (Some (StdLoggerPtr 0)); Done (Some (StdLoggerPtr 0))] /\
    shared c = {| world := registered_world; logMutex := None |}.
Proof.
  split; [reflexivity |].
  assert (H : exists c, run [0; 1; 0; 1]%nat (callers 2 registered_world) = Some c /\
                        threads c = [Done (Some (StdLoggerPtr 0));
                                     Done (Some (StdLoggerPtr 0))])
    by (eexists; split; vm_compute; reflexivity).
  destruct H as [c [Hc Ht]]. exists c. split; [exact Hc |]. split; [exact Ht |].
  exact (proj1 (interleaved_Get_registered 2 registered_world (StdLoggerPtr 0) _ c
                  eq_refl Hc)).
Defined.
